(** * Monte Carlo simulation of a transfer equation (mcs.py)

    A shallow embedding of [MonteCarloSimulator]: the registry of samplers,
    [get_random_sample], [refresh_bov] and [simulate], together with the
    parts of Python and numpy they rest on (dict access, call binding of
    keyword arguments, [eval] with a globals dict, [ndarray.mean] and
    [ndarray.std]).

    Layout: Python values and dicts, exceptions and the state monad of the
    simulator object, numpy's generator methods, the simulator itself,
    binary64 and the exactness check that runs beside it, a small runnable
    world, and then the properties. *)

From Stdlib Require Import String List Bool Arith ZArith Lia.
From Stdlib Require Import Floats QArith Qcanon.
#[local] Close Scope Qc_scope.
#[local] Close Scope Q_scope.
Import ListNotations.
Open Scope string_scope.

Set Implicit Arguments.

(* ------------------------------------------------------------------ *)
(** ** Numbers *)

(** The arithmetic numpy and Python perform on the simulated quantities.
    The program runs it on binary64 ([float64_number] below);
    [checked_number] runs the same operations and records beside each
    float whether it is still the exact value. *)
Class number (A : Type) : Type := {
  num_zero : A;
  num_one : A;
  num_add : A -> A -> A;
  num_sub : A -> A -> A;
  num_mul : A -> A -> A;
  num_div : A -> A -> A;
  num_sqrt : A -> A;
  num_of_nat : nat -> A
}.

Declare Scope num_scope.
Delimit Scope num_scope with num.
Notation "x + y" := (num_add x y) : num_scope.
Notation "x - y" := (num_sub x y) : num_scope.
Notation "x * y" := (num_mul x y) : num_scope.
Notation "x / y" := (num_div x y) : num_scope.

(* ------------------------------------------------------------------ *)
(** ** Python values, dicts and exceptions *)

(** The values that occur in the bag of variables and in a pdf dict:
    [None], a number, a string (the distribution name), and the module
    object that [eval] stores under [__builtins__]. *)
Inductive PyVal (scalar : Type) : Type :=
| VNone
| VNum (x : scalar)
| VStr (s : string)
| VBuiltins.
Arguments VNone {scalar}.
Arguments VStr {scalar} s.
Arguments VBuiltins {scalar}.

(** A dict with string keys, in insertion order. *)
Definition pydict (V : Type) : Type := list (string * V).

(** [d.get(k)], with [None] of Python as [None] of option. *)
Fixpoint dict_get {V : Type} (d : pydict V) (k : string) : option V :=
  match d with
  | [] => None
  | (k', v) :: d' => if String.eqb k k' then Some v else dict_get d' k
  end.

(** [d[k] = v]: an existing key keeps its place, a new key goes last. *)
Fixpoint dict_set {V : Type} (d : pydict V) (k : string) (v : V) : pydict V :=
  match d with
  | [] => [(k, v)]
  | (k', v') :: d' =>
      if String.eqb k k' then (k, v) :: d' else (k', v') :: dict_set d' k v
  end.

(** [d.keys()] *)
Definition dict_keys {V : Type} (d : pydict V) : list string := map fst d.

Definition dict_has {V : Type} (d : pydict V) (k : string) : bool :=
  match dict_get d k with Some _ => true | None => false end.

Inductive exn : Type :=
| Exception        (* raise Exception("Sampler for ... not implemented") *)
| TypeError
| AttributeError
| KeyError
| ValueError
| NameError
| ZeroDivisionError
| SyntaxError.

Inductive result (A : Type) : Type :=
| Ok (a : A)
| Raise (e : exn).
Arguments Raise {A} e.

Definition result_bind {A B : Type} (r : result A) (f : A -> result B) : result B :=
  match r with
  | Ok a => f a
  | Raise e => Raise e
  end.

Fixpoint result_map {A B : Type} (f : A -> result B) (l : list A) : result (list B) :=
  match l with
  | [] => Ok []
  | a :: l' =>
      result_bind (f a) (fun b =>
      result_bind (result_map f l') (fun bs => Ok (b :: bs)))
  end.

(* ------------------------------------------------------------------ *)
(** ** Calling a Python function with positional and keyword arguments *)

Section Call.
Context {scalar : Type}.

(** A parameter: its name and its default, if it has one. *)
Definition parameter : Type := string * option (PyVal scalar).

(** Positional arguments fill the parameters from the left; one argument
    too many is a TypeError. *)
Fixpoint bind_positional (params : list parameter) (args : list (PyVal scalar))
  : result (pydict (PyVal scalar)) :=
  match args, params with
  | [], _ => Ok []
  | _ :: _, [] => Raise TypeError
  | a :: args', (name, _) :: params' =>
      result_bind (bind_positional params' args') (fun b => Ok ((name, a) :: b))
  end.

(** A keyword must name a parameter (else "got an unexpected keyword
    argument") that is not bound yet (else "got multiple values"). *)
Fixpoint bind_keywords (params : list parameter) (bound : pydict (PyVal scalar))
    (kwargs : pydict (PyVal scalar)) : result (pydict (PyVal scalar)) :=
  match kwargs with
  | [] => Ok bound
  | (k, v) :: kwargs' =>
      if negb (dict_has params k) then Raise TypeError
      else if dict_has bound k then Raise TypeError
      else bind_keywords params (dict_set bound k v) kwargs'
  end.

(** A parameter left unbound takes its default; without one the call
    fails ("missing required argument"). *)
Definition bind_default (bound : pydict (PyVal scalar)) (p : parameter)
  : result (PyVal scalar) :=
  match dict_get bound (fst p), snd p with
  | Some v, _ => Ok v
  | None, Some v => Ok v
  | None, None => Raise TypeError
  end.

(** The values of the parameters, in the order of the signature. *)
Definition py_call (params : list parameter) (args : list (PyVal scalar))
    (kwargs : pydict (PyVal scalar)) : result (list (PyVal scalar)) :=
  result_bind (bind_positional params args) (fun b0 =>
  result_bind (bind_keywords params b0 kwargs) (fun b =>
  result_map (bind_default b) params)).

End Call.

(* ------------------------------------------------------------------ *)
(** ** numpy.random.Generator *)

(** The eleven generator methods the samplers call. *)
Inductive np_method : Type :=
| np_normal | np_wald | np_poisson | np_binomial | np_uniform | np_chisquare
| np_weibull | np_gamma | np_lognormal | np_exponential | np_pareto.

(** What lies outside the program: the law each generator method draws
    from, as a function of the numeric arguments and the state of the bit
    generator (it may reject the arguments, as numpy does for a negative
    scale), and the evaluation of a formula in a globals dict: its value
    or the exception it raises and, either way, the dict as the
    evaluation leaves it (an assignment expression binds a name in the
    globals; a call can do anything to them). *)
Class Env (scalar : Type) `{number scalar} : Type := {
  bitgen : Type;
  law : np_method -> list scalar -> bitgen -> result (scalar * bitgen);
  formula : Type;
  evaluate : formula -> pydict (PyVal scalar) ->
             result scalar * pydict (PyVal scalar)
}.
Arguments Env scalar {_}.

Section Generator.
Context {scalar : Type} `{E : Env scalar}.

Definition size_parameter : parameter (scalar := scalar) := ("size", Some VNone).

(** The signatures of numpy.random.Generator:
    normal(loc=0.0, scale=1.0, size=None), wald(mean, scale, size=None),
    poisson(lam=1.0, size=None), binomial(n, p, size=None),
    uniform(low=0.0, high=1.0, size=None), chisquare(df, size=None),
    weibull(a, size=None), gamma(shape, scale=1.0, size=None),
    lognormal(mean=0.0, sigma=1.0, size=None),
    exponential(scale=1.0, size=None), pareto(a, size=None). *)
Definition np_signature (m : np_method) : list parameter :=
  match m with
  | np_normal =>
      [("loc", Some (VNum num_zero)); ("scale", Some (VNum num_one)); size_parameter]
  | np_wald => [("mean", None); ("scale", None); size_parameter]
  | np_poisson => [("lam", Some (VNum num_one)); size_parameter]
  | np_binomial => [("n", None); ("p", None); size_parameter]
  | np_uniform =>
      [("low", Some (VNum num_zero)); ("high", Some (VNum num_one)); size_parameter]
  | np_chisquare => [("df", None); size_parameter]
  | np_weibull => [("a", None); size_parameter]
  | np_gamma => [("shape", None); ("scale", Some (VNum num_one)); size_parameter]
  | np_lognormal =>
      [("mean", Some (VNum num_zero)); ("sigma", Some (VNum num_one)); size_parameter]
  | np_exponential => [("scale", Some (VNum num_one)); size_parameter]
  | np_pareto => [("a", None); size_parameter]
  end.

(** The conversion of a distribution argument to a C double: anything but
    a number is a TypeError ("must be real number, not NoneType"). *)
Definition as_double (v : PyVal scalar) : result scalar :=
  match v with
  | VNum x => Ok x
  | _ => Raise TypeError
  end.

(** One call of the method [m] of [self.rng], with size None: bind the arguments,
    convert every distribution argument (all parameters but the trailing
    size), draw. A call that raises leaves the bit generator as it was. *)
Definition Generator_draw (m : np_method) (args : list (PyVal scalar))
    (kwargs : pydict (PyVal scalar)) (g : bitgen)
  : result (PyVal scalar * bitgen) :=
  result_bind (py_call (np_signature m) args kwargs) (fun vals =>
  result_bind (result_map as_double (removelast vals)) (fun xs =>
  result_bind (law m xs g) (fun xg => Ok (VNum (fst xg), snd xg)))).

End Generator.

(* ------------------------------------------------------------------ *)
(** ** The simulator object and its monad *)

(** [self.variable_pdfs] is whatever object the caller handed over; the
    program only calls its [get]. A dict never raises there; another
    object may (AttributeError when it has no [get] at all). *)
Record mapping (V : Type) : Type := { obj_get : string -> result (option V) }.

Definition of_dict {V : Type} (d : pydict V) : mapping V :=
  {| obj_get := fun k => Ok (dict_get d k) |}.

Section Simulator.
Context {scalar : Type} `{E : Env scalar}.

(** A distribution: [{"name": ..., <parameter>: ..., ...}]. *)
Definition pdf : Type := pydict (PyVal scalar).

(** The fields of [self] ([self.samplers] is the constant [samplers]
    below). [bov] and [rng] are mutated by the methods. *)
Record MonteCarloSimulator : Type := {
  transfer_equation : formula;
  bov : pydict (PyVal scalar);
  variable_pdfs : mapping pdf;
  num_iterations : nat;
  rng : bitgen
}.

Definition set_bov (b : pydict (PyVal scalar)) (self : MonteCarloSimulator)
  : MonteCarloSimulator :=
  {| transfer_equation := transfer_equation self; bov := b;
     variable_pdfs := variable_pdfs self; num_iterations := num_iterations self;
     rng := rng self |}.

Definition set_rng (g : bitgen) (self : MonteCarloSimulator) : MonteCarloSimulator :=
  {| transfer_equation := transfer_equation self; bov := bov self;
     variable_pdfs := variable_pdfs self; num_iterations := num_iterations self;
     rng := g |}.

(** A method of the object: it returns or raises, and either way leaves
    the object in some state. *)
Definition M (A : Type) : Type :=
  MonteCarloSimulator -> result A * MonteCarloSimulator.

Definition ret {A : Type} (a : A) : M A := fun self => (Ok a, self).

Definition raise {A : Type} (e : exn) : M A := fun self => (Raise e, self).

Definition bind {A B : Type} (m : M A) (f : A -> M B) : M B :=
  fun self =>
    match m self with
    | (Ok a, self') => f a self'
    | (Raise e, self') => (Raise e, self')
    end.

(** [try: body / except Exception as e: handler]. The handler starts from
    the state the body left behind. *)
Definition try_except {A : Type} (body : M A) (handler : exn -> M A) : M A :=
  fun self =>
    match body self with
    | (Ok a, self') => (Ok a, self')
    | (Raise e, self') => handler e self'
    end.

Definition lift {A : Type} (r : result A) : M A := fun self => (r, self).

(** [for x in l: body x] *)
Fixpoint for_each {A : Type} (l : list A) (body : A -> M unit) : M unit :=
  match l with
  | [] => ret tt
  | x :: l' => bind (body x) (fun _ => for_each l' body)
  end.

(** A call of a method of [self.rng]. *)
Definition rng_call (m : np_method) (args : list (PyVal scalar))
    (kwargs : pydict (PyVal scalar)) : M (PyVal scalar) :=
  fun self =>
    match Generator_draw m args kwargs (rng self) with
    | Ok (v, g) => (Ok v, set_rng g self)
    | Raise e => (Raise e, self)
    end.

End Simulator.

Declare Scope py_scope.
Delimit Scope py_scope with py.
Notation "x <- m ;; k" := (bind m (fun x => k))
  (at level 61, m at next level, right associativity) : py_scope.
Notation "m ;;; k" := (bind m (fun _ => k))
  (at level 61, right associativity) : py_scope.

Open Scope py_scope.

(* ------------------------------------------------------------------ *)
(** ** ndarray.mean and ndarray.std *)

Section Aggregation.
Context {scalar : Type} `{number scalar}.

(** The sum of a float array is numpy's pairwise summation
    ([DOUBLE_pairwise_sum], with blocks of at most 128 items).

    [r[j] += a[i + j]] for j = 0..7: the eight accumulators take the
    next eight items. *)
Definition add_lanes (r block : list scalar) : list scalar :=
  map (fun p => (fst p + snd p)%num) (combine r block).

(** [for (i = 8; i < n - (n % 8); i += 8)], with the items from [i] on:
    what the accumulators hold after [blocks] turns, and the items left. *)
Fixpoint add_blocks (blocks : nat) (r rest : list scalar)
  : list scalar * list scalar :=
  match blocks with
  | O => (r, rest)
  | S blocks' => add_blocks blocks' (add_lanes r (firstn 8 rest)) (skipn 8 rest)
  end.

(** [((r[0] + r[1]) + (r[2] + r[3])) + ((r[4] + r[5]) + (r[6] + r[7]))] *)
Definition sum_lanes (r : list scalar) : scalar :=
  match r with
  | [r0; r1; r2; r3; r4; r5; r6; r7] =>
      (((r0 + r1) + (r2 + r3)) + ((r4 + r5) + (r6 + r7)))%num
  | _ => num_zero
  end.

(** Fewer than 8 items are added one by one to 0.0; up to 128 items go
    through the eight accumulators, and the items past the last whole
    block of 8 are added to their sum one by one; a longer array is cut
    in two near its middle, at a multiple of 8, and the sums of the two
    parts are added. [fuel] bounds the depth of the cutting; the length
    of the array is enough ([pairwise_sum_fuel]). *)
Fixpoint pairwise_sum (fuel : nat) (a : list scalar) : scalar :=
  let n := length a in
  if (n <? 8)%nat then fold_left num_add a num_zero
  else if (n <=? 128)%nat then
    let (r, rest) := add_blocks (n / 8 - 1)%nat (firstn 8 a) (skipn 8 a) in
    fold_left num_add rest (sum_lanes r)
  else
    match fuel with
    | O => num_zero
    | S fuel' =>
        let n2 := (n / 2 - (n / 2) mod 8)%nat in
        (pairwise_sum fuel' (firstn n2 a) + pairwise_sum fuel' (skipn n2 a))%num
    end.

(** [add.reduce] over the whole array: the result starts as the identity
    0.0 and the pairwise sum of the items is added to it. *)
Definition np_sum (a : list scalar) : scalar :=
  (num_zero + pairwise_sum (length a) a)%num.

(** [_mean]: the sum divided by the number of items. *)
Definition np_mean (a : list scalar) : scalar :=
  (np_sum a / num_of_nat (length a))%num.

(** [_var]: the deviations from the mean, squared, summed and divided by
    [max(N - ddof, 0)]. *)
Definition np_var (ddof : nat) (a : list scalar) : scalar :=
  let arrmean := np_mean a in
  let x := map (fun v => (v - arrmean)%num) a in
  let x := map (fun d => (d * d)%num) x in
  (np_sum x / num_of_nat (length a - ddof))%num.

(** [_std]: the square root of [_var]. *)
Definition np_std (ddof : nat) (a : list scalar) : scalar :=
  num_sqrt (np_var ddof a).

(** [{"mean": calc_mean, "sd": calc_sd}] *)
Record SimulationResult : Type := { mean : scalar; sd : scalar }.

(** The last lines of [simulate]: [mean()] and [std()] of the array of
    values; [std] is called without ddof, which numpy defaults to 0. *)
Definition aggregate (values : list scalar) : SimulationResult :=
  let values_np := values in
  let calc_mean := np_mean values_np in
  let calc_sd := np_std 0 values_np in
  {| mean := calc_mean; sd := calc_sd |}.

End Aggregation.

(* ------------------------------------------------------------------ *)
(** ** The methods of MonteCarloSimulator *)

Section Methods.
Context {scalar : Type} `{E : Env scalar}.

(** [pdf.get(k)] as a Python value. *)
Definition pdf_get (p : pdf) (k : string) : PyVal scalar :=
  match dict_get p k with
  | Some v => v
  | None => VNone
  end.

Definition is_None (v : PyVal scalar) : bool :=
  match v with
  | VNone => true
  | _ => false
  end.

(** The samplers are only ever called with size None (the default, and
    what [get_random_sample] passes), so they are modelled at that size. *)
Definition random_sampler_normal (p : pdf) : M (PyVal scalar) :=
  rng_call np_normal []
    [("loc", pdf_get p "mean"); ("scale", pdf_get p "sd"); ("size", VNone)].

Definition random_sampler_wald (p : pdf) : M (PyVal scalar) :=
  rng_call np_wald []
    [("loc", pdf_get p "mean"); ("scale", pdf_get p "scale"); ("size", VNone)].

Definition random_sampler_poisson (p : pdf) : M (PyVal scalar) :=
  rng_call np_poisson [] [("loc", pdf_get p "lambda"); ("size", VNone)].

Definition random_sampler_binomial (p : pdf) : M (PyVal scalar) :=
  rng_call np_binomial [pdf_get p "numtrials"; pdf_get p "probsuccess"]
    [("size", VNone)].

Definition random_sampler_uniform (p : pdf) : M (PyVal scalar) :=
  rng_call np_uniform [pdf_get p "low"; pdf_get p "high"] [("size", VNone)].

Definition random_sampler_chisquare (p : pdf) : M (PyVal scalar) :=
  rng_call np_chisquare [pdf_get p "degfreedom"] [("size", VNone)].

Definition random_sampler_weibull (p : pdf) : M (PyVal scalar) :=
  rng_call np_weibull [pdf_get p "shape"] [("size", VNone)].

Definition random_sampler_gamma (p : pdf) : M (PyVal scalar) :=
  rng_call np_gamma [pdf_get p "shape"; pdf_get p "scale"] [("size", VNone)].

Definition random_sampler_lognormal (p : pdf) : M (PyVal scalar) :=
  rng_call np_lognormal [pdf_get p "mean"; pdf_get p "sigma"] [("size", VNone)].

Definition random_sampler_exponential (p : pdf) : M (PyVal scalar) :=
  rng_call np_exponential [pdf_get p "scale"] [("size", VNone)].

Definition random_sampler_pareto (p : pdf) : M (PyVal scalar) :=
  rng_call np_pareto [pdf_get p "shape"] [("size", VNone)].

(** [self.samplers] *)
Definition samplers : pydict (pdf -> M (PyVal scalar)) :=
  [ ("normal", random_sampler_normal);
    ("poisson", random_sampler_poisson);
    ("binomial", random_sampler_binomial);
    ("lognormal", random_sampler_lognormal);
    ("pareto", random_sampler_pareto);
    ("exponential", random_sampler_exponential);
    ("gamma", random_sampler_gamma);
    ("weibull", random_sampler_weibull);
    ("chisquare", random_sampler_chisquare);
    ("uniform", random_sampler_uniform);
    ("wald", random_sampler_wald) ].

(** [self.samplers.get(distribution)]: every key of the dict is a str. *)
Definition samplers_get (distribution : PyVal scalar)
  : option (pdf -> M (PyVal scalar)) :=
  match distribution with
  | VStr name => dict_get samplers name
  | _ => None
  end.

(** The body of the try block of [get_random_sample]. *)
Definition get_random_sample_try (p : pdf) : M (PyVal scalar) :=
  let distribution := pdf_get p "name" in
  if is_None distribution
     || match samplers_get distribution with None => true | Some _ => false end
  then raise Exception
  else
    match samplers_get distribution with
    | Some sampler => sampler p
    | None => raise KeyError
    end.

(** [rand_sample] starts as 0 and is assigned only when the try block
    runs to its end; the handler prints and falls through to the return. *)
Definition get_random_sample (p : pdf) : M (PyVal scalar) :=
  let rand_sample := VNum num_zero in
  try_except (get_random_sample_try p) (fun _ => ret rand_sample).

(** One turn of the loop of [refresh_bov]. *)
Definition refresh_key (key : string) : M unit :=
  p <- (fun self => (obj_get (variable_pdfs self) key, self)) ;;
  match p with
  | None => ret tt
  | Some p =>
      rand_sample <- get_random_sample p ;;
      (fun self => (Ok tt, set_bov (dict_set (bov self) key rand_sample) self))
  end.

(** The loop assigns to keys the dict already has, so the keys it walks
    are those the dict had on entry. *)
Definition refresh_bov : M bool :=
  try_except
    (fun self => (for_each (dict_keys (bov self)) refresh_key ;;; ret true) self)
    (fun _ => ret false).

(** [eval(expression, globals)] stores the builtins module under
    [__builtins__] in a globals dict that lacks the key, before it parses
    and evaluates the expression. *)
Definition insert_builtins (globals : pydict (PyVal scalar)) : pydict (PyVal scalar) :=
  if dict_has globals "__builtins__" then globals
  else dict_set globals "__builtins__" VBuiltins.

(** [eval(self.transfer_equation, self.bov)]: the bag itself is the
    globals dict, so what the evaluation does to its globals it does to
    the bag. *)
Definition py_eval : M scalar :=
  fun self =>
    let globals := insert_builtins (bov self) in
    let (te_result, globals') := evaluate (transfer_equation self) globals in
    (te_result, set_bov globals' self).

(** [for i in range(n)] of [simulate], with [values] so far. *)
Fixpoint simulate_loop (n : nat) (values : list scalar) : M (list scalar) :=
  match n with
  | O => ret values
  | S n' =>
      refresh_bov ;;;
      te_result <- py_eval ;;
      simulate_loop n' (values ++ [te_result])
  end.

Definition simulate : M SimulationResult :=
  fun self =>
    (values <- simulate_loop (num_iterations self) [] ;;
     ret (aggregate values)) self.

End Methods.

(** The keys the docstring of each sampler calls mandatory. *)
Definition mandatory_keys : pydict (list string) :=
  [ ("normal", ["mean"; "sd"]);
    ("wald", ["mean"; "scale"]);
    ("poisson", ["lambda"]);
    ("binomial", ["numtrials"; "probsuccess"]);
    ("uniform", ["low"; "high"]);
    ("chisquare", ["degfreedom"]);
    ("weibull", ["shape"]);
    ("gamma", ["shape"; "scale"]);
    ("lognormal", ["mean"; "sigma"]);
    ("exponential", ["scale"]);
    ("pareto", ["shape"]) ].

(* ------------------------------------------------------------------ *)
(** ** The vocabulary of the properties *)

Section Vocabulary.
Context {scalar : Type} `{E : Env scalar}.

(** A sampler that at most advances the bit generator: it returns a
    number, or raises and leaves the object untouched. *)
Definition only_draws (m : M (PyVal scalar)) : Prop :=
  forall self,
    (exists x g, m self = (Ok (VNum x), set_rng g self)) \/
    (exists e, m self = (Raise e, self)).

(** The fields no method assigns to. *)
Definition same_fields (self self' : MonteCarloSimulator) : Prop :=
  transfer_equation self' = transfer_equation self /\
  variable_pdfs self' = variable_pdfs self /\
  num_iterations self' = num_iterations self.

(** The names under which a sampler is registered. *)
Definition registered (name : string) : Prop :=
  In name (dict_keys (samplers (scalar := scalar))).

(** [n] trials in sequence, as the specification words them: each one
    refreshes the bag, whatever the refresh reports, then evaluates the
    formula to a scalar, which joins the results in order. *)
Inductive trials : nat -> MonteCarloSimulator -> list scalar ->
                   MonteCarloSimulator -> Prop :=
| trials_O (self : MonteCarloSimulator) : trials 0 self [] self
| trials_S n (self : MonteCarloSimulator) ok refreshed v evaluated vs final :
    refresh_bov self = (Ok ok, refreshed) ->
    py_eval refreshed = (Ok v, evaluated) ->
    trials n evaluated vs final ->
    trials (S n) self (v :: vs) final.


(** A formula whose evaluation leaves its globals as they are: it
    binds, rebinds and deletes no name. *)
Definition assigns_nothing (f : formula) : Prop :=
  forall globals, snd (evaluate f globals) = globals.

(** The keys after [eval] has seen the dict. *)
Definition with_builtins (keys : list string) : list string :=
  if in_dec string_dec "__builtins__" keys then keys
  else (keys ++ ["__builtins__"])%list.

End Vocabulary.

(* ------------------------------------------------------------------ *)
(** ** binary64, and the exactness check beside it *)

(** binary64, the arithmetic of Python floats and of float64 arrays. *)
#[export] Instance float64_number : number float := {
  num_zero := PrimFloat.zero;
  num_one := PrimFloat.one;
  num_add := PrimFloat.add;
  num_sub := PrimFloat.sub;
  num_mul := PrimFloat.mul;
  num_div := PrimFloat.div;
  num_sqrt := PrimFloat.sqrt;
  num_of_nat := fun n => PrimFloat.of_uint63 (Uint63.of_Z (Z.of_nat n))
}.

(** [math.isfinite]: neither a NaN nor an infinity. *)
Definition isfinite (x : float) : bool :=
  negb (PrimFloat.is_nan x) && negb (PrimFloat.is_infinity x).

(** The number a float stands for: a rational, unless the float is a NaN
    or an infinity. *)
Definition exact_value (x : float) : option Qc :=
  match Prim2SF x with
  | S754_zero _ => Some (Q2Qc 0)
  | S754_finite s m e =>
      Some (Q2Qc (inject_Z (cond_Zopp s (Zpos m)) * Qpower (2 # 1) e))
  | S754_infinity _ | S754_nan => None
  end.

(** A float with the rational it should be, as long as every operation
    that led to it was exact: no rounding, no overflow, no NaN. Once an
    operation is not exact the rational is gone for good. *)
Definition checked : Type := (float * option Qc)%type.

Definition inject (x : float) : checked := (x, exact_value x).

(** [f] is kept with [q] when it stands for [q]. *)
Definition check (f : float) (q : option Qc) : checked :=
  (f,
   match q, exact_value f with
   | Some q, Some v => if Qc_eq_bool v q then Some q else None
   | _, _ => None
   end).

Definition exact2 (op : Qc -> Qc -> Qc) (a b : option Qc) : option Qc :=
  match a, b with
  | Some x, Some y => Some (op x y)
  | _, _ => None
  end.

Definition exact_div (a b : option Qc) : option Qc :=
  match a, b with
  | Some x, Some y => if Qc_eq_bool y (Q2Qc 0) then None else Some (Qcdiv x y)
  | _, _ => None
  end.

(** The square root is exact when the float it returns stands for a
    non-negative rational whose square is the argument. *)
Definition exact_sqrt (f : float) (a : option Qc) : option Qc :=
  match a, exact_value f with
  | Some x, Some r =>
      if Qc_eq_bool (Qcmult r r) x && Qle_bool 0 r then Some r else None
  | _, _ => None
  end.

(** The operations of binary64, each followed by the check of its
    result against the operation on the rationals. *)
#[export] Instance checked_number : number checked := {
  num_zero := check PrimFloat.zero (Some (Q2Qc 0));
  num_one := check PrimFloat.one (Some (Q2Qc 1));
  num_add := fun a b =>
    check (PrimFloat.add (fst a) (fst b)) (exact2 Qcplus (snd a) (snd b));
  num_sub := fun a b =>
    check (PrimFloat.sub (fst a) (fst b)) (exact2 Qcminus (snd a) (snd b));
  num_mul := fun a b =>
    check (PrimFloat.mul (fst a) (fst b)) (exact2 Qcmult (snd a) (snd b));
  num_div := fun a b =>
    check (PrimFloat.div (fst a) (fst b)) (exact_div (snd a) (snd b));
  num_sqrt := fun a =>
    (PrimFloat.sqrt (fst a), exact_sqrt (PrimFloat.sqrt (fst a)) (snd a));
  num_of_nat := fun n =>
    check (PrimFloat.of_uint63 (Uint63.of_Z (Z.of_nat n)))
          (Some (Q2Qc (inject_Z (Z.of_nat n))))
}.

(** The aggregation run with the check: the rationals the mean and the
    sd stand for, when no operation on the way was inexact. *)
Definition exact_aggregate (values : list float) : option (Qc * Qc) :=
  let r := aggregate (map inject values) in
  match snd (mean r), snd (sd r) with
  | Some m, Some s => Some (m, s)
  | _, _ => None
  end.

(** The textbook definitions, over the rationals: the arithmetic mean,
    and the population variance and standard deviation, whose
    denominator is the count N (the sample ones divide by N - 1). *)
Definition Qcsum (l : list Qc) : Qc := fold_right Qcplus (Q2Qc 0) l.

Definition count (l : list Qc) : Qc := Q2Qc (inject_Z (Z.of_nat (length l))).

Definition arithmetic_mean (l : list Qc) : Qc := Qcdiv (Qcsum l) (count l).

Definition population_variance (l : list Qc) : Qc :=
  Qcdiv (Qcsum (map (fun x => Qcmult (Qcminus x (arithmetic_mean l))
                                     (Qcminus x (arithmetic_mean l))) l))
        (count l).

Definition is_population_sd (s : Qc) (l : list Qc) : Prop :=
  Qcle (Q2Qc 0) s /\ Qcmult s s = population_variance l.

(* ------------------------------------------------------------------ *)
(** ** A runnable world *)

(** Arithmetic expressions over names, the formulas the program is meant
    for, and the assignment expression [(target := value)], with the
    semantics Python gives them on floats. *)
Inductive operator : Type := Add | Sub | Mult | Div.

Inductive expr : Type :=
| Constant (x : float)
| Name (id : string)
| BinOp (left : expr) (op : operator) (right : expr)
| NamedExpr (target : string) (value : expr).

Definition binop (op : operator) (x y : float) : result float :=
  match op with
  | Add => Ok (x + y)%float
  | Sub => Ok (x - y)%float
  | Mult => Ok (x * y)%float
  | Div => if (y =? 0)%float then Raise ZeroDivisionError else Ok (x / y)%float
  end.

(** A name is looked up in the globals; one that is not bound there is a
    NameError, and a binding that is not a number cannot be an operand.
    The operands of an operator are evaluated left to right. An
    assignment expression binds its target in the globals, since [eval]
    runs the expression at module level, and has the value assigned. What
    was bound before an exception stays bound. *)
Fixpoint eval_expr (e : expr) (globals : pydict (PyVal float))
  : result float * pydict (PyVal float) :=
  match e with
  | Constant x => (Ok x, globals)
  | Name id =>
      match dict_get globals id with
      | Some (VNum x) => (Ok x, globals)
      | Some _ => (Raise TypeError, globals)
      | None => (Raise NameError, globals)
      end
  | BinOp l op r =>
      match eval_expr l globals with
      | (Ok x, globals1) =>
          match eval_expr r globals1 with
          | (Ok y, globals2) => (binop op x y, globals2)
          | (Raise e, globals2) => (Raise e, globals2)
          end
      | (Raise e, globals1) => (Raise e, globals1)
      end
  | NamedExpr target value =>
      match eval_expr value globals with
      | (Ok x, globals1) => (Ok x, dict_set globals1 target (VNum x))
      | (Raise e, globals1) => (Raise e, globals1)
      end
  end.

(** The expressions without an assignment. *)
Fixpoint assignment_free (e : expr) : bool :=
  match e with
  | Constant _ | Name _ => true
  | BinOp l _ r => assignment_free l && assignment_free r
  | NamedExpr _ _ => false
  end.

(** A stand-in for the bit generator: the state counts the draws, and the
    n-th variate is (n mod 8) / 8. normal and uniform scale it as numpy
    scales its variates, and normal rejects a negative scale; the other
    families return the variate as it is. It serves to run the model on
    examples; every general property below holds for any law. *)
Definition variate (g : nat) : float :=
  (PrimFloat.of_uint63 (Uint63.of_Z (Z.of_nat (g mod 8))) / 8)%float.

Definition standin_law (m : np_method) (xs : list float) (g : nat)
  : result (float * nat) :=
  match m, xs with
  | np_normal, [loc; scale] =>
      if (scale <? 0)%float then Raise ValueError
      else Ok ((loc + scale * (variate g - 0.5))%float, S g)
  | np_uniform, [low; high] => Ok ((low + (high - low) * variate g)%float, S g)
  | _, _ => Ok (variate g, S g)
  end.

#[export] Instance standin : Env float := {
  bitgen := nat;
  law := standin_law;
  formula := expr;
  evaluate := eval_expr
}.

(** The example at the end of mcs.py, with 3 iterations. *)
Definition road_cost : MonteCarloSimulator := {|
  transfer_equation := BinOp (Name "unit_cost_km") Mult (Name "total_road_length");
  bov := [("unit_cost_km", VNum 0%float); ("total_road_length", VNum 0%float)];
  variable_pdfs := of_dict
    [ ("unit_cost_km", [("name", VStr "normal"); ("mean", VNum 1000%float); ("sd", VNum 150%float)]);
      ("total_road_length", [("name", VStr "uniform"); ("low", VNum 45%float); ("high", VNum 55%float)]) ];
  num_iterations := 3;
  rng := 0
|}.

(** Runs of the model. [run f b t n] is the object that
    [MonteCarloSimulator(f, b, t, num_iterations=n)] builds, with the
    stand-in generator in its first state. *)
Definition run (f : expr) (b : pydict (PyVal float)) (t : mapping pdf) (n : nat)
  : MonteCarloSimulator :=
  {| transfer_equation := f; bov := b; variable_pdfs := t;
     num_iterations := n; rng := 0 |}.

Definition normal_pdf (m s : float) : pdf :=
  [("name", VStr "normal"); ("mean", VNum m); ("sd", VNum s)].

Definition uniform_pdf (l h : float) : pdf :=
  [("name", VStr "uniform"); ("low", VNum l); ("high", VNum h)].

(** The formula names a variable the bag does not have. *)
Definition unbound_name : MonteCarloSimulator :=
  run (Name "y") [("x", VNum 0%float)] (of_dict []) 2.

(** 1 / (x - 1), with x drawn as 0, then 1: the second trial divides by
    zero. *)
Definition late_failure : MonteCarloSimulator :=
  run (BinOp (Constant 1) Div (BinOp (Name "x") Sub (Constant 1)))
      [("x", VNum 0%float)]
      (of_dict [("x", uniform_pdf 0 8)]) 3.

(** x * x with x = 2^600, one trial: the product overflows. *)
Definition overflow : MonteCarloSimulator :=
  run (BinOp (Name "x") Mult (Name "x")) [("x", VNum 0x1p+600%float)]
      (of_dict []) 1.

(** x with x = 3, one trial. *)
Definition one_trial : MonteCarloSimulator :=
  run (Name "x") [("x", VNum 3%float)] (of_dict []) 1.

(** The pdf of [a] names a family that is not registered. *)
Definition nosuch_pdf : pdf (scalar := float) := [("name", VStr "nosuch")].

Definition degraded : MonteCarloSimulator :=
  run (BinOp (Name "a") Add (Name "b"))
      [("a", VNum 1%float); ("b", VNum 2%float)]
      (of_dict [("a", nosuch_pdf); ("b", normal_pdf 5 0)]) 2.

(** A pdf table that is not a dict: its [get] raises for the key b. *)
Definition flaky_table : mapping (pdf (scalar := float)) :=
  {| obj_get := fun k =>
       if String.eqb k "b" then Raise KeyError
       else if String.eqb k "a" then Ok (Some (normal_pdf 5 0))
       else Ok None |}.

Definition flaky : MonteCarloSimulator :=
  run (Name "a")
      [("a", VNum 1%float); ("b", VNum 2%float); ("c", VNum 3%float)]
      flaky_table 2.

(** A normal pdf without its sd, and a poisson pdf with its lambda. *)
Definition normal_without_sd : pdf (scalar := float) :=
  [("name", VStr "normal"); ("mean", VNum 10%float)].

Definition poisson_pdf : pdf (scalar := float) :=
  [("name", VStr "poisson"); ("lambda", VNum 4%float)].

(* ------------------------------------------------------------------ *)
(** ** The constructor, and more runs *)

Section Constructor.
Context {scalar : Type} `{E : Env scalar}.

(** [__init__(self, transfer_equation, bag_of_variables, variable_pdfs,
    num_iterations=1000)]: the arguments are stored as they come, the bag
    by reference; [default_rng()] is the generator the object starts
    with. *)
Definition init (transfer_equation : formula)
    (bag_of_variables : pydict (PyVal scalar)) (variable_pdfs : mapping pdf)
    (num_iterations : option nat) (default_rng : bitgen) : MonteCarloSimulator :=
  {| transfer_equation := transfer_equation;
     bov := bag_of_variables;
     variable_pdfs := variable_pdfs;
     num_iterations :=
       match num_iterations with Some n => n | None => 1000 end;
     rng := default_rng |}.

End Constructor.

(** The generator method behind each sampler that names its arguments
    as numpy does: all of the registry but poisson and wald. *)
Definition numpy_method : pydict np_method :=
  [ ("normal", np_normal);
    ("binomial", np_binomial);
    ("lognormal", np_lognormal);
    ("pareto", np_pareto);
    ("exponential", np_exponential);
    ("gamma", np_gamma);
    ("weibull", np_weibull);
    ("chisquare", np_chisquare);
    ("uniform", np_uniform) ].

(** (z := a + b), one trial. *)
Definition walrus : MonteCarloSimulator :=
  run (NamedExpr "z" (BinOp (Name "a") Add (Name "b")))
      [("a", VNum 1%float); ("b", VNum 2%float)] (of_dict []) 1.

(** The one variable has a pdf of a family that is not registered. *)
Definition unknown_family : MonteCarloSimulator :=
  run (Name "a") [("a", VNum 7%float)] (of_dict [("a", nosuch_pdf)]) 1.

(** The pdf of [a] lacks its sd. *)
Definition incomplete : MonteCarloSimulator :=
  run (BinOp (Name "a") Add (Name "b"))
      [("a", VNum 1%float); ("b", VNum 2%float)]
      (of_dict [("a", normal_without_sd); ("b", normal_pdf 5 0)]) 2.

(** a + b, where only b has a pdf. *)
Definition partly_governed : MonteCarloSimulator :=
  run (BinOp (Name "a") Add (Name "b"))
      [("a", VNum 5%float); ("b", VNum 0%float)]
      (of_dict [("b", normal_pdf 1 0)]) 4.

(** The pdf table of the example of mcs.py. *)
Definition road_cost_pdfs : pydict (pdf (scalar := float)) :=
  [ ("unit_cost_km", normal_pdf 1000 150);
    ("total_road_length", uniform_pdf 45 55) ].

(* ================================================================== *)
(** * Properties *)

Unset Implicit Arguments.

(* ------------------------------------------------------------------ *)
(** ** Dicts *)

Section DictFacts.
Context {V : Type}.
Implicit Types (d : pydict V) (k : string) (v : V).

Lemma dict_get_set_same d k v : dict_get (dict_set d k v) k = Some v.
Proof.
  induction d as [|[k' v'] d IH]; simpl.
  - now rewrite String.eqb_refl.
  - destruct (String.eqb k k') eqn:Hk; simpl.
    + now rewrite String.eqb_refl.
    + now rewrite Hk.
Qed.

Lemma dict_get_set_other d k k' v :
  k' <> k -> dict_get (dict_set d k v) k' = dict_get d k'.
Proof.
  intros Hne. induction d as [|[k0 v0] d IH]; simpl.
  - apply String.eqb_neq in Hne. now rewrite Hne.
  - destruct (String.eqb k k0) eqn:Hk; simpl.
    + apply String.eqb_eq in Hk. subst k0.
      apply String.eqb_neq in Hne. now rewrite Hne.
    + destruct (String.eqb k' k0); [reflexivity | exact IH].
Qed.

Lemma dict_has_In d k : dict_has d k = true <-> In k (dict_keys d).
Proof.
  unfold dict_has, dict_keys. induction d as [|[k' v'] d IH]; simpl.
  - split; [discriminate | tauto].
  - destruct (String.eqb k k') eqn:Hk.
    + apply String.eqb_eq in Hk. subst. tauto.
    + apply String.eqb_neq in Hk. rewrite IH. split; [tauto|].
      intros [Heq | Hin]; [congruence | exact Hin].
Qed.

Lemma dict_has_not_In d k : dict_has d k = false <-> ~ In k (dict_keys d).
Proof.
  rewrite <- dict_has_In. destruct (dict_has d k); split; congruence.
Qed.

(** Assigning to a key the dict has keeps the keys and their order; a new
    key is appended. *)
Lemma dict_keys_set d k v :
  dict_keys (dict_set d k v) =
  if dict_has d k then dict_keys d else (dict_keys d ++ [k])%list.
Proof.
  unfold dict_has, dict_keys. induction d as [|[k' v'] d IH]; simpl.
  - reflexivity.
  - destruct (String.eqb k k') eqn:Hk; simpl.
    + apply String.eqb_eq in Hk. now subst.
    + rewrite IH. now destruct (dict_get d k).
Qed.

Lemma dict_keys_set_In d k v :
  In k (dict_keys d) -> dict_keys (dict_set d k v) = dict_keys d.
Proof.
  intros Hin. rewrite dict_keys_set.
  apply dict_has_In in Hin. now rewrite Hin.
Qed.

Lemma dict_get_Some_In d k v : dict_get d k = Some v -> In (k, v) d.
Proof.
  induction d as [|[k' v'] d IH]; simpl; [discriminate|].
  destruct (String.eqb k k') eqn:Hk.
  - apply String.eqb_eq in Hk. intros [= ->]. subst. now left.
  - intros H. right. now apply IH.
Qed.

End DictFacts.

(* ------------------------------------------------------------------ *)
(** ** The sampler *)

Section SamplerFacts.
Context {scalar : Type} `{E : Env scalar}.
Implicit Types self : MonteCarloSimulator.

Lemma Generator_draw_number m args kwargs g v g' :
  Generator_draw m args kwargs g = Ok (v, g') -> exists x, v = VNum x.
Proof.
  unfold Generator_draw, result_bind.
  destruct (py_call (np_signature m) args kwargs) as [vals|]; [|discriminate].
  destruct (result_map as_double (removelast vals)) as [xs|]; [|discriminate].
  destruct (law m xs g) as [[x g1]|]; [|discriminate].
  intros [= <- _]. now exists x.
Qed.

Lemma rng_call_only_draws m args kwargs : only_draws (rng_call m args kwargs).
Proof.
  intros self. unfold rng_call.
  destruct (Generator_draw m args kwargs (rng self)) as [[v g]|e] eqn:Hd; eauto.
  destruct (Generator_draw_number _ _ _ _ _ _ Hd) as [x ->]. eauto.
Qed.

Lemma samplers_only_draw name sampler p :
  dict_get samplers name = Some sampler -> only_draws (sampler p).
Proof.
  intros Hget. apply dict_get_Some_In in Hget. simpl in Hget.
  repeat (destruct Hget as [Heq | Hget];
          [injection Heq as _ <-; apply rng_call_only_draws |]).
  contradiction.
Qed.

Lemma set_rng_same self : set_rng (rng self) self = self.
Proof. now destruct self. Qed.

(** [get_random_sample] returns on every input: whatever its try block
    raises is caught. It touches nothing but the bit generator. *)
Lemma get_random_sample_returns p self :
  exists x g, get_random_sample p self = (Ok (VNum x), set_rng g self).
Proof.
  unfold get_random_sample, try_except, get_random_sample_try.
  destruct (is_None (pdf_get p "name")); simpl.
  { exists num_zero, (rng self). now rewrite set_rng_same. }
  unfold samplers_get.
  destruct (pdf_get p "name") as [|x|name|];
    try (exists num_zero, (rng self); now rewrite set_rng_same).
  destruct (dict_get samplers name) as [sampler|] eqn:Hs; simpl.
  - destruct (samplers_only_draw name sampler p Hs self) as [(v & g & ->)|(e & ->)].
    + now exists v, g.
    + exists num_zero, (rng self). now rewrite set_rng_same.
  - exists num_zero, (rng self). now rewrite set_rng_same.
Qed.

(** When the try block raises, the sample is 0 and the object, bit
    generator included, is as before. *)
Lemma get_random_sample_caught p self e self' :
  get_random_sample_try p self = (Raise e, self') ->
  get_random_sample p self = (Ok (VNum num_zero), self').
Proof.
  intros Hb. unfold get_random_sample, try_except. now rewrite Hb.
Qed.

Lemma numbers_of_pdf (p : pdf) k ks (x : scalar) xs :
  map (dict_get p) (k :: ks) = map (fun x => Some (VNum x)) (x :: xs) ->
  pdf_get p k = VNum x /\
  map (dict_get p) ks = map (fun x => Some (VNum x)) xs.
Proof.
  simpl. intros [= Hk Hks]. unfold pdf_get. now rewrite Hk.
Qed.

(** The samplers that name their arguments as numpy does hand the
    numbers of the pdf to the law of their family. *)
Lemma get_random_sample_by_law (p : pdf) self name m ks xs :
  dict_get p "name" = Some (VStr name) ->
  dict_get numpy_method name = Some m ->
  dict_get mandatory_keys name = Some ks ->
  map (dict_get p) ks = map (fun x => Some (VNum x)) xs ->
  get_random_sample p self =
    match law m xs (rng self) with
    | Ok (x, g) => (Ok (VNum x), set_rng g self)
    | Raise _ => (Ok (VNum num_zero), self)
    end.
Proof.
  intros Hname Hm Hks Hxs.
  unfold get_random_sample, try_except, get_random_sample_try.
  unfold pdf_get at 1 2 3. rewrite Hname.
  simpl in Hm.
  repeat match type of Hm with
         | (if String.eqb name ?s then _ else _) = _ =>
             let Hn := fresh "Hn" in
             destruct (String.eqb name s) eqn:Hn;
             [apply String.eqb_eq in Hn; subst name;
              injection Hm as <-; injection Hks as <-;
              repeat (destruct xs as [|? xs]; try discriminate Hxs);
              repeat match type of Hxs with
                     | map _ (_ :: _) = _ =>
                         let Hk := fresh "Hk" in
                         apply numbers_of_pdf in Hxs as [Hk Hxs]
                     end;
              cbn;
              unfold random_sampler_normal, random_sampler_binomial,
                random_sampler_uniform, random_sampler_chisquare,
                random_sampler_weibull, random_sampler_gamma,
                random_sampler_lognormal, random_sampler_exponential,
                random_sampler_pareto, rng_call, Generator_draw, py_call;
              repeat match goal with Hk : @pdf_get _ _ _ = _ |- _ =>
                       rewrite Hk; clear Hk end;
              cbn;
              match goal with
              | |- context [law ?m ?l ?g] =>
                  now destruct (law m l g) as [[? ?]|?]
              end
             |]
         end.
  discriminate.
Qed.


(** A pdf without a name, or with a name that is no key of the registry,
    is not sampled. *)
Lemma get_random_sample_unregistered (p : pdf) self :
  (forall name, dict_get p "name" = Some (VStr name) -> ~ registered name) ->
  get_random_sample p self = (Ok (VNum num_zero), self).
Proof.
  intros Hname. apply (get_random_sample_caught p self Exception self).
  unfold get_random_sample_try, pdf_get.
  destruct (dict_get p "name") as [[|x|name|]|] eqn:Hn; try reflexivity.
  unfold samplers_get.
  destruct (dict_get samplers name) as [f|] eqn:Hf; [|reflexivity].
  exfalso. apply (Hname name eq_refl). unfold registered.
  apply dict_has_In. unfold dict_has. now rewrite Hf.
Qed.

End SamplerFacts.

(* ------------------------------------------------------------------ *)
(** ** The refresh of the bag *)

Section RefreshFacts.
Context {scalar : Type} `{E : Env scalar}.
Implicit Types self partial : MonteCarloSimulator.

Lemma same_fields_refl self : same_fields self self.
Proof. now repeat split. Qed.

Lemma same_fields_trans s1 s2 s3 :
  same_fields s1 s2 -> same_fields s2 s3 -> same_fields s1 s3.
Proof.
  intros (A1 & A2 & A3) (B1 & B2 & B3). repeat split; congruence.
Qed.

(** The three ways a turn of the loop can go. *)
Lemma refresh_key_cases key self :
  match obj_get (variable_pdfs self) key with
  | Raise e => refresh_key key self = (Raise e, self)
  | Ok None => refresh_key key self = (Ok tt, self)
  | Ok (Some p) =>
      exists x g,
        get_random_sample p self = (Ok (VNum x), set_rng g self) /\
        refresh_key key self =
          (Ok tt, set_bov (dict_set (bov self) key (VNum x)) (set_rng g self))
  end.
Proof.
  unfold refresh_key, bind.
  destruct (obj_get (variable_pdfs self) key) as [[p|]|e]; try reflexivity.
  destruct (get_random_sample_returns p self) as (v & g & Hs).
  exists v, g. now rewrite Hs.
Qed.

Lemma refresh_key_frame key self r self' :
  refresh_key key self = (r, self') ->
  same_fields self self' /\
  (forall k, k <> key -> dict_get (bov self') k = dict_get (bov self) k) /\
  (In key (dict_keys (bov self)) -> dict_keys (bov self') = dict_keys (bov self)).
Proof.
  intros Hk. pose proof (refresh_key_cases key self) as Hc.
  destruct (obj_get (variable_pdfs self) key) as [[p|]|e].
  - destruct Hc as (v & g & _ & Hc). rewrite Hc in Hk. injection Hk as _ <-.
    split; [now repeat split|]. split; simpl.
    + intros k Hne. now apply dict_get_set_other.
    + apply dict_keys_set_In.
  - rewrite Hc in Hk. injection Hk as _ <-.
    split; [apply same_fields_refl | now split].
  - rewrite Hc in Hk. injection Hk as _ <-.
    split; [apply same_fields_refl | now split].
Qed.

Lemma for_each_app {A : Type} (l1 l2 : list A) (body : A -> M unit) self :
  for_each (l1 ++ l2) body self = (for_each l1 body ;;; for_each l2 body) self.
Proof.
  revert self. induction l1 as [|x l1 IH]; intros self; simpl.
  - reflexivity.
  - unfold bind in *. destruct (body x self) as [[[]|e] s1]; [apply IH | reflexivity].
Qed.

(** However the loop ends, it has touched only the values of the keys it
    walked; it adds and removes no key. *)
Lemma for_each_refresh_frame keys : forall self r self',
  for_each keys refresh_key self = (r, self') ->
  same_fields self self' /\
  (forall k, ~ In k keys -> dict_get (bov self') k = dict_get (bov self) k) /\
  ((forall k, In k keys -> In k (dict_keys (bov self))) ->
   dict_keys (bov self') = dict_keys (bov self)).
Proof.
  induction keys as [|key keys IH]; intros self r self' Hrun; simpl in Hrun.
  - injection Hrun as _ <-. split; [apply same_fields_refl | now split].
  - unfold bind in Hrun.
    destruct (refresh_key key self) as [r1 s1] eqn:H1.
    destruct (refresh_key_frame key self _ _ H1) as (F1 & G1 & K1).
    destruct r1 as [[]|e].
    + destruct (IH _ _ _ Hrun) as (F2 & G2 & K2).
      split; [eapply same_fields_trans; eassumption|]. split.
      * intros k Hk. simpl in Hk. rewrite G2, G1; intuition congruence.
      * intros Hin. rewrite K2, K1; auto using in_eq.
        intros k Hk. rewrite K1; auto using in_eq, in_cons.
    + injection Hrun as _ <-. split; [exact F1|]. split.
      * intros k Hk. simpl in Hk. apply G1. intuition congruence.
      * intros Hin. apply K1. apply Hin, in_eq.
Qed.

(** A key without a pdf keeps its value, wherever it stands. *)
Lemma for_each_refresh_absent k keys : forall self r self',
  for_each keys refresh_key self = (r, self') ->
  obj_get (variable_pdfs self) k = Ok None ->
  dict_get (bov self') k = dict_get (bov self) k.
Proof.
  induction keys as [|key keys IH]; intros self r self' Hrun Hk; simpl in Hrun.
  - now injection Hrun as _ <-.
  - unfold bind in Hrun.
    destruct (refresh_key key self) as [r1 s1] eqn:H1.
    assert (Hs1 : dict_get (bov s1) k = dict_get (bov self) k).
    { destruct (string_dec k key) as [->|Hne].
      - pose proof (refresh_key_cases key self) as Hc. rewrite Hk in Hc.
        rewrite Hc in H1. now injection H1 as _ <-.
      - now apply (refresh_key_frame key self _ _ H1). }
    destruct (refresh_key_frame key self _ _ H1) as ((_ & Hp & _) & _).
    destruct r1 as [[]|e].
    + rewrite <- Hs1. eapply IH; [eassumption | now rewrite Hp].
    + now injection Hrun as _ <-.
Qed.

(** The loop runs to its end when every lookup returns. *)
Lemma for_each_refresh_ok keys : forall self,
  (forall k, In k keys -> exists o, obj_get (variable_pdfs self) k = Ok o) ->
  exists self', for_each keys refresh_key self = (Ok tt, self').
Proof.
  induction keys as [|key keys IH]; intros self Hok; simpl.
  - now exists self.
  - unfold bind. destruct (refresh_key key self) as [r1 s1] eqn:H1.
    destruct (refresh_key_frame key self _ _ H1) as ((_ & Hp & _) & _).
    pose proof (refresh_key_cases key self) as Hc.
    destruct (Hok key (in_eq _ _)) as [o Ho]. rewrite Ho in Hc.
    assert (r1 = Ok tt) as ->.
    { destruct o as [p|]; [destruct Hc as (v & g & _ & Hc)|]; congruence. }
    apply IH. intros k Hk. rewrite Hp. auto using in_cons.
Qed.

(** [refresh_bov] itself never raises. *)
Lemma refresh_bov_returns self :
  exists b self', refresh_bov self = (Ok b, self').
Proof.
  unfold refresh_bov, try_except, bind.
  destruct (for_each (dict_keys (bov self)) refresh_key self) as [[[]|e] s1];
    unfold ret; eauto.
Qed.

Lemma refresh_bov_frame self b self' :
  refresh_bov self = (Ok b, self') ->
  same_fields self self' /\ dict_keys (bov self') = dict_keys (bov self).
Proof.
  unfold refresh_bov, try_except, bind. intros Hrun.
  destruct (for_each (dict_keys (bov self)) refresh_key self) as [r s1] eqn:Hloop.
  destruct (for_each_refresh_frame _ _ _ _ Hloop) as (F & _ & K).
  assert (s1 = self') as ->.
  { destruct r as [[]|e]; unfold ret in Hrun; congruence. }
  split; [exact F | now apply K].
Qed.

End RefreshFacts.

(* ------------------------------------------------------------------ *)
(** ** Claims about sampling and refresh *)

Section RefreshClaims.
Context {scalar : Type} `{E : Env scalar}.
Implicit Types self partial : MonteCarloSimulator.

Lemma for_each_refresh_noop keys : forall self,
  (forall k, In k keys -> obj_get (variable_pdfs self) k = Ok None) ->
  for_each keys refresh_key self = (Ok tt, self).
Proof.
  induction keys as [|key keys IH]; intros self Hnone; simpl.
  - reflexivity.
  - unfold bind. pose proof (refresh_key_cases key self) as Hc.
    rewrite (Hnone key (in_eq _ _)) in Hc. rewrite Hc.
    apply IH. auto using in_cons.
Qed.

(** The value found under a key with a pdf, once the loop is over, is the
    sample drawn when the loop stood at that key. *)
Lemma for_each_refresh_sampled keys self self' before k after (p : pdf) :
  for_each keys refresh_key self = (Ok tt, self') ->
  NoDup keys ->
  keys = (before ++ k :: after)%list ->
  obj_get (variable_pdfs self) k = Ok (Some p) ->
  exists s x g,
    for_each before refresh_key self = (Ok tt, s) /\
    get_random_sample p s = (Ok (VNum x), set_rng g s) /\
    dict_get (bov self') k = Some (VNum x).
Proof.
  intros Hrun Hnd -> Hp. rewrite for_each_app in Hrun. unfold bind in Hrun.
  destruct (for_each before refresh_key self) as [[[]|e] s] eqn:Hb;
    [|discriminate].
  destruct (for_each_refresh_frame _ _ _ _ Hb) as ((_ & Hpdfs & _) & _).
  simpl in Hrun. unfold bind in Hrun.
  pose proof (refresh_key_cases k s) as Hc. rewrite Hpdfs, Hp in Hc.
  destruct Hc as (v & g & Hs & Hc). rewrite Hc in Hrun.
  exists s, v, g. repeat split; [exact Hs|].
  apply NoDup_remove_2 in Hnd.
  destruct (for_each_refresh_frame _ _ _ _ Hrun) as (_ & Hframe & _).
  rewrite Hframe by (intros Hin; apply Hnd, in_or_app; now right).
  simpl. apply dict_get_set_same.
Qed.

(** C5, as the program has it. With a dict as pdf table, [refresh_bov]
    returns True; the keys of the bag are as before; a key without an
    entry in the table keeps its value; a key with an entry holds what
    [get_random_sample] returned for it when the loop reached it. That
    is a fresh draw, by the law of the family from the numbers of the
    entry and the generator as the keys before left it, when the entry
    names a family whose sampler calls numpy as numpy expects and binds
    the mandatory keys to numbers the law accepts. It is 0, with the
    generator untouched, when the law rejects the numbers, and when the
    entry has no name or a name that is not registered. With an empty
    table the object is left exactly as it was. *)
Theorem refresh_bov_overwrites_governed_keys self (d : pydict pdf) :
  variable_pdfs self = of_dict d ->
  NoDup (dict_keys (bov self)) ->
  exists self',
    refresh_bov self = (Ok true, self') /\
    dict_keys (bov self') = dict_keys (bov self) /\
    (forall k, dict_get d k = None ->
       dict_get (bov self') k = dict_get (bov self) k) /\
    (forall before k after p,
       dict_keys (bov self) = (before ++ k :: after)%list ->
       dict_get d k = Some p ->
       exists s x g,
         for_each before refresh_key self = (Ok tt, s) /\
         get_random_sample p s = (Ok (VNum x), set_rng g s) /\
         dict_get (bov self') k = Some (VNum x) /\
         (forall name m ks xs,
            dict_get p "name" = Some (VStr name) ->
            dict_get numpy_method name = Some m ->
            dict_get mandatory_keys name = Some ks ->
            map (dict_get p) ks = map (fun x => Some (VNum x)) xs ->
            match law m xs (rng s) with
            | Ok (y, g') => x = y /\ g = g'
            | Raise _ => x = num_zero /\ g = rng s
            end) /\
         ((forall name, dict_get p "name" = Some (VStr name) ->
                        ~ registered name) ->
          x = num_zero /\ g = rng s)) /\
    (d = [] -> self' = self).
Proof.
  intros Hd Hnd.
  destruct (for_each_refresh_ok (dict_keys (bov self)) self) as [self' Hloop].
  { intros k _. rewrite Hd. simpl. eauto. }
  exists self'. split.
  { unfold refresh_bov, try_except, bind. now rewrite Hloop. }
  destruct (for_each_refresh_frame _ _ _ _ Hloop) as (_ & _ & Hkeys).
  split; [now apply Hkeys|]. split; [|split].
  - intros k Hk. eapply for_each_refresh_absent; [exact Hloop|].
    rewrite Hd. simpl. now rewrite Hk.
  - intros before k after p Hsplit Hp.
    destruct (for_each_refresh_sampled _ _ _ before k after p Hloop Hnd Hsplit)
      as (s & x & g & Hb & Hs & Hget).
    { rewrite Hd. simpl. now rewrite Hp. }
    exists s, x, g.
    split; [exact Hb|]. split; [exact Hs|]. split; [exact Hget|]. split.
    + intros name m ks xs Hname Hm Hks Hxs.
      rewrite (get_random_sample_by_law p s name m ks xs Hname Hm Hks Hxs) in Hs.
      destruct (law m xs (rng s)) as [[y g']|e].
      * injection Hs as -> ->. now split.
      * injection Hs as <- Hg. split; [reflexivity|].
        now apply (f_equal rng) in Hg.
    + intros Hname.
      rewrite (get_random_sample_unregistered p s Hname) in Hs.
      injection Hs as <- Hg. split; [reflexivity|].
      now apply (f_equal rng) in Hg.
  - intros ->. rewrite for_each_refresh_noop in Hloop; [congruence|].
    intros k _. now rewrite Hd.
Qed.

(** C3, as the program has it. An exception raised while the pdf of a key
    is looked up ends the loop there: [refresh_bov] returns False, and the
    object is left as the keys before that one made it, nothing undone and
    no other key touched. An exception raised while sampling never gets
    that far: [get_random_sample] catches it and returns. *)
Theorem refresh_bov_aborts_on_failed_lookup self before k after e :
  dict_keys (bov self) = (before ++ k :: after)%list ->
  (forall k', In k' before -> exists o, obj_get (variable_pdfs self) k' = Ok o) ->
  obj_get (variable_pdfs self) k = Raise e ->
  (exists partial,
     for_each before refresh_key self = (Ok tt, partial) /\
     refresh_bov self = (Ok false, partial) /\
     (forall k', ~ In k' before ->
        dict_get (bov partial) k' = dict_get (bov self) k')) /\
  (forall (p : pdf) s,
     exists x g, get_random_sample p s = (Ok (VNum x), set_rng g s)).
Proof.
  intros Hkeys Hbefore Hk. split; [|intros p s; apply get_random_sample_returns].
  destruct (for_each_refresh_ok before self Hbefore) as [partial Hb].
  exists partial. split; [exact Hb|].
  destruct (for_each_refresh_frame _ _ _ _ Hb) as ((_ & Hpdfs & _) & Hframe & _).
  split; [|exact Hframe].
  unfold refresh_bov, try_except. rewrite Hkeys.
  unfold bind at 1. rewrite for_each_app. unfold bind at 1. rewrite Hb.
  simpl. unfold bind at 1.
  pose proof (refresh_key_cases k partial) as Hc. rewrite Hpdfs, Hk in Hc.
  now rewrite Hc.
Qed.

(** C4. When the pdf has no name, or a name that is no key of the
    registry, the try block raises, [get_random_sample] catches it and
    returns 0 with the object as before; the loop of [refresh_bov] stores
    the 0 and goes on, and [refresh_bov] reports success. *)
Theorem unknown_family_samples_zero (p : pdf) self :
  (forall name, dict_get p "name" = Some (VStr name) -> ~ registered name) ->
  get_random_sample_try p self = (Raise Exception, self) /\
  get_random_sample p self = (Ok (VNum num_zero), self) /\
  (forall key,
     obj_get (variable_pdfs self) key = Ok (Some p) ->
     refresh_key key self =
       (Ok tt, set_bov (dict_set (bov self) key (VNum num_zero)) self)) /\
  (forall d, variable_pdfs self = of_dict d ->
     exists self', refresh_bov self = (Ok true, self')).
Proof.
  intros Hname.
  assert (Htry : get_random_sample_try p self = (Raise Exception, self)).
  { unfold get_random_sample_try, pdf_get.
    destruct (dict_get p "name") as [[|x|name|]|] eqn:Hn; try reflexivity.
    unfold samplers_get.
    destruct (dict_get samplers name) as [f|] eqn:Hf; [|reflexivity].
    exfalso. apply (Hname name eq_refl). unfold registered.
    apply dict_has_In. unfold dict_has. now rewrite Hf. }
  assert (Hs : get_random_sample p self = (Ok (VNum num_zero), self))
    by exact (get_random_sample_caught p self _ _ Htry).
  repeat split; try assumption.
  - intros key Hkey. unfold refresh_key, bind. now rewrite Hkey, Hs.
  - intros d Hd.
    destruct (for_each_refresh_ok (dict_keys (bov self)) self) as [self' Hloop].
    { intros k _. rewrite Hd. simpl. eauto. }
    exists self'. unfold refresh_bov, try_except, bind. now rewrite Hloop.
Qed.

End RefreshClaims.

Section DegradedSamples.
Context {scalar : Type} `{E : Env scalar}.
Implicit Types self : MonteCarloSimulator.

(** What follows for the refresh once a sample is the caught 0. *)
Lemma refresh_stores_zero (p : pdf) self :
  get_random_sample p self = (Ok (VNum num_zero), self) ->
  (forall key,
     obj_get (variable_pdfs self) key = Ok (Some p) ->
     refresh_key key self =
       (Ok tt, set_bov (dict_set (bov self) key (VNum num_zero)) self)) /\
  (forall d, variable_pdfs self = of_dict d ->
     exists self', refresh_bov self = (Ok true, self')).
Proof.
  intros Hs. split.
  - intros key Hkey. unfold refresh_key, bind. now rewrite Hkey, Hs.
  - intros d Hd.
    destruct (for_each_refresh_ok (dict_keys (bov self)) self) as [self' Hloop].
    { intros k _. rewrite Hd. simpl. eauto. }
    exists self'. unfold refresh_bov, try_except, bind. now rewrite Hloop.
Qed.

(** A generator call with None among its distribution arguments, or with
    a keyword the method does not have, raises before anything is drawn. *)
Ltac run_call :=
  cbn;
  repeat match goal with
         | |- context [match dict_get ?p ?k with _ => _ end] =>
             destruct (dict_get p k) as [[| | |]|]; cbn
         end;
  eauto.

Lemma missing_parameter_raises (p : pdf) self name ks k :
  dict_get p "name" = Some (VStr name) ->
  dict_get mandatory_keys name = Some ks ->
  In k ks ->
  dict_get p k = None ->
  exists e, get_random_sample_try p self = (Raise e, self).
Proof.
  intros Hname Hks Hin Hk.
  unfold get_random_sample_try. unfold pdf_get at 1 2 3. rewrite Hname.
  simpl in Hks.
  repeat match type of Hks with
         | (if String.eqb name ?s then _ else _) = _ =>
             let Hn := fresh "Hn" in
             destruct (String.eqb name s) eqn:Hn;
             [apply String.eqb_eq in Hn; subst name; injection Hks as <-;
              simpl in Hin;
              repeat (destruct Hin as [<- | Hin]; [| try contradiction]);
              cbn;
              unfold random_sampler_normal, random_sampler_wald,
                random_sampler_poisson, random_sampler_binomial,
                random_sampler_uniform, random_sampler_chisquare,
                random_sampler_weibull, random_sampler_gamma,
                random_sampler_lognormal, random_sampler_exponential,
                random_sampler_pareto, rng_call, Generator_draw, py_call, pdf_get;
              try rewrite Hk; run_call
             |]
         end.
  discriminate.
Qed.

(** C10. A pdf whose name is registered but which lacks a key its sampler
    needs: the generator call raises inside the try block, nothing is
    drawn, [get_random_sample] returns 0, the loop of [refresh_bov] stores
    the 0 under the key and goes on, and the outcome is the one an
    unregistered name has. A refresh of a bag in which some key has such
    a pdf returns True, whatever the other keys have, and leaves 0 under
    that key. *)
Theorem missing_parameter_samples_zero (p : pdf) self name ks k :
  dict_get p "name" = Some (VStr name) ->
  dict_get mandatory_keys name = Some ks ->
  In k ks ->
  dict_get p k = None ->
  (exists e, get_random_sample_try p self = (Raise e, self)) /\
  get_random_sample p self = (Ok (VNum num_zero), self) /\
  (forall key,
     obj_get (variable_pdfs self) key = Ok (Some p) ->
     refresh_key key self =
       (Ok tt, set_bov (dict_set (bov self) key (VNum num_zero)) self)) /\
  (forall d, variable_pdfs self = of_dict d ->
     exists self', refresh_bov self = (Ok true, self')) /\
  (forall p' : pdf,
     (forall name', dict_get p' "name" = Some (VStr name') -> ~ registered name') ->
     get_random_sample p' self = get_random_sample p self) /\
  (forall (d : pydict pdf) before key after,
     variable_pdfs self = of_dict d ->
     NoDup (dict_keys (bov self)) ->
     dict_keys (bov self) = (before ++ key :: after)%list ->
     dict_get d key = Some p ->
     exists self',
       refresh_bov self = (Ok true, self') /\
       dict_get (bov self') key = Some (VNum num_zero)).
Proof.
  intros Hname Hks Hin Hk.
  assert (exists e, get_random_sample_try p self = (Raise e, self)) as [e He]
    by (eapply missing_parameter_raises; eassumption).
  pose proof (get_random_sample_caught p self _ _ He) as Hs.
  destruct (refresh_stores_zero p self Hs) as [Hkey Hrefresh].
  split; [eauto|]. split; [exact Hs|]. split; [exact Hkey|].
  split; [exact Hrefresh|]. split.
  - intros p' Hp'. rewrite Hs. now apply get_random_sample_unregistered.
  - intros d before key after Hd Hnd Hsplit Hp.
    destruct (for_each_refresh_ok (dict_keys (bov self)) self) as [self' Hloop].
    { intros k0 _. rewrite Hd. simpl. eauto. }
    exists self'. split.
    { unfold refresh_bov, try_except, bind. now rewrite Hloop. }
    destruct (for_each_refresh_sampled _ _ _ before key after p Hloop Hnd Hsplit)
      as (s & x & g & _ & Hx & Hget).
    { rewrite Hd. simpl. now rewrite Hp. }
    destruct (missing_parameter_raises p s name ks k Hname Hks Hin Hk)
      as [e' He'].
    rewrite (get_random_sample_caught p s _ _ He') in Hx.
    injection Hx as <- _. exact Hget.
Qed.

(** C6, on the code. The poisson and wald samplers pass their first
    argument under the keyword loc, which neither [Generator.poisson]
    (lam) nor [Generator.wald] (mean, scale) has: the call raises a
    TypeError before anything is drawn, and the sample is 0 for every pdf
    and every state of the generator. *)
Theorem poisson_and_wald_samples_are_zero (p : pdf) self :
  dict_get p "name" = Some (VStr "poisson") \/
  dict_get p "name" = Some (VStr "wald") ->
  get_random_sample_try p self = (Raise TypeError, self) /\
  get_random_sample p self = (Ok (VNum num_zero), self).
Proof.
  intros Hname.
  assert (Htry : get_random_sample_try p self = (Raise TypeError, self)).
  { unfold get_random_sample_try. unfold pdf_get at 1 2 3.
    destruct Hname as [-> | ->]; reflexivity. }
  split; [exact Htry | exact (get_random_sample_caught p self _ _ Htry)].
Qed.

(** The normal sampler, by contrast, names the parameters as numpy does
    and hands the two numbers of the pdf to the law. *)
Lemma normal_sampler_draws (p : pdf) self a b :
  dict_get p "name" = Some (VStr "normal") ->
  dict_get p "mean" = Some (VNum a) ->
  dict_get p "sd" = Some (VNum b) ->
  get_random_sample_try p self =
    match law np_normal [a; b] (rng self) with
    | Ok (x, g) => (Ok (VNum x), set_rng g self)
    | Raise e => (Raise e, self)
    end.
Proof.
  intros Hname Ha Hb.
  unfold get_random_sample_try. unfold pdf_get at 1 2 3. rewrite Hname. cbn.
  unfold random_sampler_normal, rng_call, Generator_draw, py_call, pdf_get.
  rewrite Ha, Hb. cbn.
  now destruct (law np_normal [a; b] (rng self)) as [[x g]|e].
Qed.

End DegradedSamples.

(* ------------------------------------------------------------------ *)
(** ** The simulation loop *)

Section LoopFacts.
Context {scalar : Type} `{E : Env scalar}.
Implicit Types self final : MonteCarloSimulator.

Lemma trials_length n self vs final : trials n self vs final -> length vs = n.
Proof. induction 1; simpl; congruence. Qed.

Lemma simulate_loop_S n values self :
  simulate_loop (S n) values self =
  match py_eval (snd (refresh_bov self)) with
  | (Ok v, evaluated) => simulate_loop n (values ++ [v]) evaluated
  | (Raise e, failed) => (Raise e, failed)
  end.
Proof.
  simpl. unfold bind.
  destruct (refresh_bov_returns self) as (b & refreshed & ->). simpl.
  now destruct (py_eval refreshed) as [[v|e] s].
Qed.

(** After [k] completed trials the loop stands where a fresh loop over
    the remaining turns would start. *)
Lemma simulate_loop_after_trials k self vs after_k :
  trials k self vs after_k ->
  forall n values,
    simulate_loop (k + n) values self = simulate_loop n (values ++ vs) after_k.
Proof.
  induction 1 as [self | k self ok refreshed v evaluated vs final Hr He _ IH];
    intros m values.
  - simpl. now rewrite app_nil_r.
  - change (S k + m) with (S (k + m)). rewrite simulate_loop_S, Hr. cbn [snd].
    rewrite He, IH. now rewrite <- app_assoc.
Qed.

Lemma py_eval_fields self r evaluated :
  py_eval self = (r, evaluated) -> same_fields self evaluated.
Proof.
  unfold py_eval.
  destruct (evaluate (transfer_equation self) (insert_builtins (bov self)))
    as [te_result globals'].
  intros [= _ <-]. now repeat split.
Qed.

(** A loop that returns has gone through all its trials. *)
Lemma simulate_loop_returned n : forall values self result final,
  simulate_loop n values self = (Ok result, final) ->
  exists vs, result = (values ++ vs)%list /\ trials n self vs final.
Proof.
  induction n as [|n IH]; intros values self result final Hrun.
  - simpl in Hrun. injection Hrun as <- <-. exists []. split.
    + now rewrite app_nil_r.
    + constructor.
  - rewrite simulate_loop_S in Hrun.
    destruct (refresh_bov_returns self) as (b & refreshed & Hr).
    rewrite Hr in Hrun. cbn [snd] in Hrun.
    destruct (py_eval refreshed) as [[v|e] evaluated] eqn:He; [|discriminate].
    destruct (IH _ _ _ _ Hrun) as (vs & -> & Hvs).
    exists (v :: vs). split.
    + now rewrite <- app_assoc.
    + econstructor; eassumption.
Qed.

(** Where the formula has a value under all bindings, the trials never
    stop short. *)
Lemma trials_exist n : forall self,
  (forall globals, exists v globals',
     evaluate (transfer_equation self) globals = (Ok v, globals')) ->
  exists vs final, trials n self vs final.
Proof.
  induction n as [|n IH]; intros self Hev.
  - exists [], self. constructor.
  - destruct (refresh_bov_returns self) as (b & refreshed & Hr).
    destruct (refresh_bov_frame self b refreshed Hr) as ((Hte & _) & _).
    destruct (Hev (insert_builtins (bov refreshed))) as (v & globals' & Hv).
    assert (He : py_eval refreshed = (Ok v, set_bov globals' refreshed)).
    { unfold py_eval. now rewrite Hte, Hv. }
    destruct (IH (set_bov globals' refreshed)) as (vs & final & Hvs).
    { simpl. now rewrite Hte. }
    exists (v :: vs), final. econstructor; eassumption.
Qed.

(** *** The keys of the bag *)

Lemma insert_builtins_keys (globals : pydict (PyVal scalar)) :
  dict_keys (insert_builtins globals) = with_builtins (dict_keys globals).
Proof.
  unfold insert_builtins, with_builtins.
  destruct (dict_has globals "__builtins__") eqn:Hh.
  - apply dict_has_In in Hh. now destruct (in_dec _ _ _).
  - rewrite dict_keys_set, Hh. apply dict_has_not_In in Hh.
    now destruct (in_dec _ _ _).
Qed.

Lemma with_builtins_idem keys : with_builtins (with_builtins keys) = with_builtins keys.
Proof.
  unfold with_builtins.
  destruct (in_dec string_dec "__builtins__" keys) as [Hin|Hnin].
  - now destruct (in_dec string_dec "__builtins__" keys).
  - destruct (in_dec string_dec "__builtins__" (keys ++ ["__builtins__"]))
      as [_|Hn]; [reflexivity|].
    exfalso. apply Hn, in_or_app. right. now left.
Qed.

Lemma refresh_bov_keys self :
  dict_keys (bov (snd (refresh_bov self))) = dict_keys (bov self).
Proof.
  destruct (refresh_bov_returns self) as (b & refreshed & Hr).
  rewrite Hr. simpl. now apply (refresh_bov_frame self b refreshed).
Qed.

(** What [eval] leaves in the bag: the globals as the formula left
    them, which had [__builtins__] when its evaluation began. *)
Lemma py_eval_bov self :
  bov (snd (py_eval self)) =
  snd (evaluate (transfer_equation self) (insert_builtins (bov self))).
Proof.
  unfold py_eval.
  now destruct (evaluate (transfer_equation self) (insert_builtins (bov self))).
Qed.

Lemma py_eval_pure self :
  assigns_nothing (transfer_equation self) ->
  bov (snd (py_eval self)) = insert_builtins (bov self).
Proof. intros Hpure. rewrite py_eval_bov. apply Hpure. Qed.

Lemma py_eval_keys self :
  assigns_nothing (transfer_equation self) ->
  dict_keys (bov (snd (py_eval self))) = with_builtins (dict_keys (bov self)).
Proof. intros Hpure. rewrite py_eval_pure by exact Hpure. apply insert_builtins_keys. Qed.

Lemma refresh_bov_formula self :
  transfer_equation (snd (refresh_bov self)) = transfer_equation self.
Proof.
  destruct (refresh_bov_returns self) as (b & refreshed & Hr).
  rewrite Hr. simpl. now apply (refresh_bov_frame self b refreshed).
Qed.

Lemma simulate_loop_keys n : forall values self,
  assigns_nothing (transfer_equation self) ->
  dict_keys (bov (snd (simulate_loop n values self))) =
  match n with
  | O => dict_keys (bov self)
  | S _ => with_builtins (dict_keys (bov self))
  end.
Proof.
  induction n as [|n IH]; intros values self Hpure.
  - reflexivity.
  - rewrite simulate_loop_S.
    rewrite <- (refresh_bov_formula self) in Hpure.
    pose proof (py_eval_keys (snd (refresh_bov self)) Hpure) as Hk.
    rewrite refresh_bov_keys in Hk.
    destruct (py_eval (snd (refresh_bov self))) as [[v|e] s] eqn:He;
      cbn [snd] in Hk.
    + apply py_eval_fields in He. destruct He as (Hte & _).
      rewrite <- Hte in Hpure.
      rewrite (IH _ _ Hpure), Hk.
      destruct n; [reflexivity | apply with_builtins_idem].
    + exact Hk.
Qed.

End LoopFacts.

Section LoopClaims.
Context {scalar : Type} `{E : Env scalar}.
Implicit Types self final : MonteCarloSimulator.

Lemma simulate_loop_outcome n : forall self,
  (exists values final,
     simulate_loop n [] self = (Ok values, final) /\
     trials n self values final /\
     length values = n) \/
  (exists k done after_k e failed,
     k < n /\
     trials k self done after_k /\
     py_eval (snd (refresh_bov after_k)) = (Raise e, failed) /\
     simulate_loop n [] self = (Raise e, failed)).
Proof.
  induction n as [|n IH]; intros self.
  - left. exists [], self. repeat split. constructor.
  - destruct (refresh_bov_returns self) as (b & refreshed & Hr).
    destruct (py_eval refreshed) as [[v|e] evaluated] eqn:He.
    + assert (H1 : trials 1 self [v] evaluated)
        by (econstructor; [exact Hr | exact He | constructor]).
      destruct (IH evaluated) as
        [(values & final & Hrun & Htr & Hlen)
        |(k & done & after_k & e & failed & Hk & Htr & Hev & Hrun)].
      * left. exists (v :: values), final.
        assert (Hall : trials (S n) self (v :: values) final)
          by (econstructor; eassumption).
        repeat split; [|exact Hall|simpl; congruence].
        rewrite <- (Nat.add_0_r (S n)).
        rewrite (simulate_loop_after_trials _ _ _ _ Hall). reflexivity.
      * right. exists (S k), (v :: done), after_k, e, failed.
        assert (Hall : trials (S k) self (v :: done) after_k)
          by (econstructor; eassumption).
        repeat split; [lia | exact Hall | exact Hev |].
        replace (S n) with (S k + S (n - S k)) by lia.
        rewrite (simulate_loop_after_trials _ _ _ _ Hall).
        now rewrite simulate_loop_S, Hev.
    + right. exists 0, [], self, e, evaluated.
      repeat split; [lia | constructor | now rewrite Hr |].
      now rewrite simulate_loop_S, Hr; cbn [snd]; rewrite He.
Qed.

Lemma simulate_unfold self :
  simulate self =
  match simulate_loop (num_iterations self) [] self with
  | (Ok values, final) => (Ok (aggregate values), final)
  | (Raise e, failed) => (Raise e, failed)
  end.
Proof.
  unfold simulate, bind.
  now destruct (simulate_loop (num_iterations self) [] self) as [[values|e] s].
Qed.

(** C1, as the program has it. Unless an evaluation of the formula
    raises, [simulate] goes through exactly [num_iterations] trials, each
    a refresh followed by an evaluation whose scalar joins the results,
    and the results number [num_iterations]; a refresh that fails, or a
    draw that fails, never ends the loop. The one other outcome is that
    the evaluation of some trial raises, and the run ends there. *)
Theorem simulate_runs_trials_until_evaluation_fails self :
  (exists values final,
     simulate_loop (num_iterations self) [] self = (Ok values, final) /\
     trials (num_iterations self) self values final /\
     length values = num_iterations self /\
     simulate self = (Ok (aggregate values), final)) \/
  (exists k done after_k e failed,
     k < num_iterations self /\
     trials k self done after_k /\
     py_eval (snd (refresh_bov after_k)) = (Raise e, failed) /\
     simulate self = (Raise e, failed)).
Proof.
  destruct (simulate_loop_outcome (num_iterations self) self) as
    [(values & final & Hrun & Htr & Hlen)
    |(k & done & after_k & e & failed & Hk & Htr & Hev & Hrun)].
  - left. exists values, final. repeat split; try assumption.
    now rewrite simulate_unfold, Hrun.
  - right. exists k, done, after_k, e, failed. repeat split; try assumption.
    now rewrite simulate_unfold, Hrun.
Qed.

(** C8. When, after [k] completed trials with more to go, the evaluation
    of the next trial raises, [simulate] raises that exception: its
    handlers are all inside the refresh, there is no result, and the
    object is left as the failed evaluation left it. *)
Theorem evaluation_failure_ends_the_run self k done after_k e failed :
  trials k self done after_k ->
  k < num_iterations self ->
  py_eval (snd (refresh_bov after_k)) = (Raise e, failed) ->
  simulate self = (Raise e, failed).
Proof.
  intros Htr Hk Hev. rewrite simulate_unfold.
  replace (num_iterations self) with (k + S (num_iterations self - S k)) by lia.
  rewrite (simulate_loop_after_trials _ _ _ _ Htr).
  now rewrite simulate_loop_S, Hev.
Qed.

(** C7, as the program has it. [refresh_bov] leaves the keys of the bag
    as they are, in their order. [eval] works on the bag itself: it
    appends the key [__builtins__] to a bag that lacks it, and then the
    bag is whatever the evaluation of the formula makes of it. When the
    formula assigns to no global, the bag after [eval] is the bag with
    [__builtins__], and a run of one trial or more ends, whether it
    returns or raises, with the keys it started with and
    [__builtins__]. *)
Theorem bag_keys_gain_only_builtins self :
  dict_keys (bov (snd (refresh_bov self))) = dict_keys (bov self) /\
  bov (snd (py_eval self)) =
    snd (evaluate (transfer_equation self) (insert_builtins (bov self))) /\
  dict_keys (insert_builtins (bov self)) = with_builtins (dict_keys (bov self)) /\
  (assigns_nothing (transfer_equation self) ->
   dict_keys (bov (snd (py_eval self))) = with_builtins (dict_keys (bov self)) /\
   dict_keys (bov (snd (simulate self))) =
     match num_iterations self with
     | O => dict_keys (bov self)
     | S _ => with_builtins (dict_keys (bov self))
     end).
Proof.
  split; [apply refresh_bov_keys|]. split; [apply py_eval_bov|].
  split; [apply insert_builtins_keys|]. intros Hpure.
  split; [now apply py_eval_keys|].
  rewrite <- (simulate_loop_keys (num_iterations self) [] self Hpure).
  rewrite simulate_unfold.
  now destruct (simulate_loop (num_iterations self) [] self) as [[values|e] s].
Qed.

End LoopClaims.

(* ------------------------------------------------------------------ *)
(** ** The summation *)

Section Summation.
Context {scalar : Type} `{number scalar}.

Lemma halves_shorter n :
  128 < n ->
  n / 2 - (n / 2) mod 8 < n /\ n - (n / 2 - (n / 2) mod 8) < n.
Proof.
  intros Hn.
  pose proof (Nat.div_mod_eq n 2) as Hd.
  pose proof (Nat.mod_upper_bound n 2 ltac:(lia)) as Hm.
  pose proof (Nat.mod_upper_bound (n / 2) 8 ltac:(lia)) as Hm8.
  pose proof (Nat.Div0.mod_le (n / 2) 8) as Hle.
  lia.
Qed.

(** The length of the array is fuel enough: more changes nothing. *)
Lemma pairwise_sum_fuel fuel : forall fuel' (a : list scalar),
  length a <= fuel -> length a <= fuel' ->
  pairwise_sum fuel a = pairwise_sum fuel' a.
Proof.
  induction fuel as [|fuel IH]; intros fuel' a Hf Hf'.
  - destruct a; [|simpl in Hf; lia]. now destruct fuel'.
  - destruct fuel' as [|fuel'].
    + destruct a; [|simpl in Hf'; lia]. reflexivity.
    + cbn [pairwise_sum].
      destruct (length a <? 8)%nat; [reflexivity|].
      destruct (length a <=? 128)%nat eqn:Hn; [reflexivity|].
      apply Nat.leb_gt in Hn. destruct (halves_shorter _ Hn) as [H1 H2].
      rewrite (IH fuel' (firstn _ a)), (IH fuel' (skipn _ a)); try reflexivity;
        rewrite ?length_firstn, ?length_skipn; lia.
Qed.

End Summation.

(** *** From the checked run to the run on floats *)

Section Homomorphism.
Context {A B : Type} {NA : number A} {NB : number B} (h : A -> B).
Hypothesis h_zero : h num_zero = num_zero.
Hypothesis h_add : forall a b, h (a + b)%num = (h a + h b)%num.
Hypothesis h_sub : forall a b, h (a - b)%num = (h a - h b)%num.
Hypothesis h_mul : forall a b, h (a * b)%num = (h a * h b)%num.
Hypothesis h_div : forall a b, h (a / b)%num = (h a / h b)%num.
Hypothesis h_sqrt : forall a, h (num_sqrt a) = num_sqrt (h a).
Hypothesis h_of_nat : forall n, h (num_of_nat n) = num_of_nat n.

Lemma fold_left_hom l : forall a,
  h (fold_left num_add l a) = fold_left num_add (map h l) (h a).
Proof.
  induction l as [|x l IH]; intros a; simpl; [reflexivity|].
  now rewrite IH, h_add.
Qed.

Lemma add_lanes_hom r : forall block,
  map h (add_lanes r block) = add_lanes (map h r) (map h block).
Proof.
  unfold add_lanes.
  induction r as [|x r IH]; intros [|y block]; simpl; try reflexivity.
  now rewrite h_add, IH.
Qed.

Lemma add_blocks_hom blocks : forall r rest,
  add_blocks blocks (map h r) (map h rest) =
  (map h (fst (add_blocks blocks r rest)), map h (snd (add_blocks blocks r rest))).
Proof.
  induction blocks as [|blocks IH]; intros r rest; cbn [add_blocks]; [reflexivity|].
  now rewrite firstn_map, skipn_map, <- add_lanes_hom, IH.
Qed.

Lemma sum_lanes_hom r : h (sum_lanes r) = sum_lanes (map h r).
Proof.
  do 9 (destruct r as [|? r]; simpl; try exact h_zero).
  now rewrite !h_add.
Qed.

Lemma pairwise_sum_hom fuel : forall a,
  h (pairwise_sum fuel a) = pairwise_sum fuel (map h a).
Proof.
  induction fuel as [|fuel IH]; intros a; cbn [pairwise_sum];
    rewrite length_map;
    (destruct (length a <? 8)%nat;
     [now rewrite fold_left_hom, h_zero|]);
    (destruct (length a <=? 128)%nat;
     [rewrite firstn_map, skipn_map, add_blocks_hom;
      destruct (add_blocks _ (firstn 8 a) (skipn 8 a)) as [r rest]; cbn [fst snd];
      now rewrite fold_left_hom, sum_lanes_hom|]).
  - exact h_zero.
  - now rewrite h_add, !IH, <- firstn_map, <- skipn_map.
Qed.

Lemma np_sum_hom a : h (np_sum a) = np_sum (map h a).
Proof. unfold np_sum. now rewrite h_add, h_zero, pairwise_sum_hom, length_map. Qed.

Lemma np_mean_hom a : h (np_mean a) = np_mean (map h a).
Proof. unfold np_mean. now rewrite h_div, np_sum_hom, h_of_nat, length_map. Qed.

Lemma np_var_hom ddof a : h (np_var ddof a) = np_var ddof (map h a).
Proof.
  unfold np_var. rewrite h_div, np_sum_hom, h_of_nat, length_map.
  do 2 f_equal. rewrite !map_map. apply map_ext. intros x.
  now rewrite h_mul, h_sub, np_mean_hom.
Qed.

Lemma np_std_hom ddof a : h (np_std ddof a) = np_std ddof (map h a).
Proof. unfold np_std. now rewrite h_sqrt, np_var_hom. Qed.

End Homomorphism.

(* ------------------------------------------------------------------ *)
(** ** The aggregation, when it is exact *)

(** *** The checked run: what an exact result says of its operands *)

Section Exactness.
Local Open Scope Qc_scope.
Implicit Types a b : checked.

Lemma check_exact f o r :
  snd (check f o) = Some r -> o = Some r /\ exact_value f = Some r.
Proof.
  unfold check. cbn [snd].
  destruct o as [q|]; [|discriminate].
  destruct (exact_value f) as [v|]; [|discriminate].
  destruct (Qc_eq_bool v q) eqn:Hv; [|discriminate].
  apply Qc_eq_bool_correct in Hv. intros [= <-]. now subst.
Qed.

Lemma exact2_Some op (o1 o2 : option Qc) r :
  exact2 op o1 o2 = Some r -> exists x y, o1 = Some x /\ o2 = Some y /\ r = op x y.
Proof. destruct o1, o2; try discriminate. intros [= <-]. eauto. Qed.

Lemma zero_exact : snd (num_zero : checked) = Some 0.
Proof. reflexivity. Qed.

Lemma add_exact a b r :
  snd (a + b)%num = Some r ->
  exists x y, snd a = Some x /\ snd b = Some y /\ r = x + y.
Proof. intros Hr. apply check_exact in Hr as [Hr _]. now apply exact2_Some in Hr. Qed.

Lemma sub_exact a b r :
  snd (a - b)%num = Some r ->
  exists x y, snd a = Some x /\ snd b = Some y /\ r = x - y.
Proof. intros Hr. apply check_exact in Hr as [Hr _]. now apply exact2_Some in Hr. Qed.

Lemma mul_exact a b r :
  snd (a * b)%num = Some r ->
  exists x y, snd a = Some x /\ snd b = Some y /\ r = x * y.
Proof. intros Hr. apply check_exact in Hr as [Hr _]. now apply exact2_Some in Hr. Qed.

Lemma div_exact a b r :
  snd (a / b)%num = Some r ->
  exists x y, snd a = Some x /\ snd b = Some y /\ y <> 0 /\ r = x / y /\
              exact_value (fst (a / b)%num) = Some r.
Proof.
  intros Hr. apply check_exact in Hr as [Hr Hv].
  unfold exact_div in Hr.
  destruct (snd a) as [x|]; [|discriminate].
  destruct (snd b) as [y|]; [|discriminate].
  destruct (Qc_eq_bool y (Q2Qc 0)) eqn:Hy; [discriminate|].
  injection Hr as <-. exists x, y. repeat split; try assumption.
  intros ->. vm_compute in Hy. discriminate.
Qed.

Lemma sqrt_exact a r :
  snd (num_sqrt a) = Some r ->
  exists x, snd a = Some x /\ r * r = x /\ 0 <= r /\
            exact_value (fst (num_sqrt a)) = Some r.
Proof.
  cbn [num_sqrt checked_number snd fst]. unfold exact_sqrt.
  destruct (snd a) as [x|]; [|discriminate].
  destruct (exact_value (PrimFloat.sqrt (fst a))) as [v|]; [|discriminate].
  destruct (Qc_eq_bool (v * v) x) eqn:Hsq; [|discriminate].
  destruct (Qle_bool 0 v) eqn:Hle; [|discriminate].
  apply Qc_eq_bool_correct in Hsq. apply Qle_bool_iff in Hle.
  intros [= <-]. exists x. repeat split; assumption.
Qed.

Lemma of_nat_exact n r :
  snd (num_of_nat n : checked) = Some r -> r = Q2Qc (inject_Z (Z.of_nat n)).
Proof. intros Hr. apply check_exact in Hr as [[= <-] _]. reflexivity. Qed.


(** *** Sums *)

Lemma map_Some_inj (q1 : list Qc) : forall q2, map Some q1 = map Some q2 -> q1 = q2.
Proof.
  induction q1 as [|x q1 IH]; intros [|y q2]; simpl; try discriminate; auto.
  intros [= -> Hq]. f_equal. auto.
Qed.

Lemma Qcsum_app (q1 q2 : list Qc) : Qcsum (q1 ++ q2)%list = Qcsum q1 + Qcsum q2.
Proof. induction q1 as [|x q1 IH]; simpl; [|rewrite IH]; ring. Qed.

Lemma exact_split n (l : list checked) (q1 q2 : list Qc) :
  map snd (firstn n l) = map Some q1 ->
  map snd (skipn n l) = map Some q2 ->
  map snd l = map Some (q1 ++ q2)%list.
Proof.
  intros H1 H2. rewrite <- (firstn_skipn n l) at 1.
  rewrite !map_app. f_equal; assumption.
Qed.

Lemma fold_left_exact (l : list checked) : forall a r,
  snd (fold_left num_add l a) = Some r ->
  exists x qs, snd a = Some x /\ map snd l = map Some qs /\ r = x + Qcsum qs.
Proof.
  induction l as [|v l IH]; intros a r Hr; cbn [fold_left] in Hr.
  - exists r, []. repeat split; [assumption|]. simpl. ring.
  - apply IH in Hr as (x' & qs & Hx' & Hqs & ->).
    apply add_exact in Hx' as (x & y & Hx & Hy & ->).
    exists x, (y :: qs). repeat split; [assumption| |].
    + cbn [map]. now rewrite Hy, Hqs.
    + simpl. ring.
Qed.

Lemma add_lanes_exact (r : list checked) : forall block q',
  length r = length block ->
  map snd (add_lanes r block) = map Some q' ->
  exists qr qb,
    map snd r = map Some qr /\ map snd block = map Some qb /\
    Qcsum q' = Qcsum qr + Qcsum qb.
Proof.
  unfold add_lanes.
  induction r as [|x r IH]; intros [|y block] q' Hlen Hq';
    try discriminate Hlen.
  - destruct q'; [|discriminate]. exists [], []. repeat split; simpl; ring.
  - cbn [combine map fst snd] in Hq'.
    destruct q' as [|c q']; [discriminate|].
    cbn [map] in Hq'. injection Hq' as Hc Hq'.
    apply add_exact in Hc as (qx & qy & Hx & Hy & ->).
    injection Hlen as Hlen.
    destruct (IH block q' Hlen Hq') as (qr & qb & Hr & Hb & Hsum).
    exists (qx :: qr), (qy :: qb). cbn [map].
    rewrite Hx, Hy, Hr, Hb. repeat split; simpl; rewrite Hsum; ring.
Qed.

Lemma add_lanes_length {scalar : Type} `{number scalar} (r block : list scalar) :
  length (add_lanes r block) = Nat.min (length r) (length block).
Proof. unfold add_lanes. now rewrite length_map, length_combine. Qed.

Lemma add_blocks_exact blocks : forall (r rest : list checked),
  length r = 8%nat ->
  (8 * blocks <= length rest)%nat ->
  length (fst (add_blocks blocks r rest)) = 8%nat /\
  forall q' qrest',
    map snd (fst (add_blocks blocks r rest)) = map Some q' ->
    map snd (snd (add_blocks blocks r rest)) = map Some qrest' ->
    exists qr qrest,
      map snd r = map Some qr /\ map snd rest = map Some qrest /\
      Qcsum qr + Qcsum qrest = Qcsum q' + Qcsum qrest'.
Proof.
  induction blocks as [|blocks IH]; intros r rest Hr Hrest; cbn [add_blocks].
  - split; [exact Hr|]. intros q' qrest' Hq' Hqrest'. now exists q', qrest'.
  - assert (Hblock : length (firstn 8 rest) = 8%nat)
      by (rewrite length_firstn; lia).
    destruct (IH (add_lanes r (firstn 8 rest)) (skipn 8 rest)) as [Hlen Hex].
    { rewrite add_lanes_length. lia. }
    { rewrite length_skipn. lia. }
    split; [exact Hlen|]. intros q' qrest' Hq' Hqrest'.
    destruct (Hex q' qrest' Hq' Hqrest') as (ql & qs & Hl & Hs & Hsum).
    apply add_lanes_exact in Hl as (qr & qb & Hqr & Hqb & Hl); [|congruence].
    exists qr, (qb ++ qs)%list. repeat split; [assumption| |].
    + now apply (exact_split 8).
    + rewrite Qcsum_app, <- Hsum, Hl. ring.
Qed.

Lemma sum_lanes_exact (r : list checked) x :
  length r = 8%nat ->
  snd (sum_lanes r) = Some x ->
  exists qr, map snd r = map Some qr /\ x = Qcsum qr.
Proof.
  intros Hlen Hx.
  do 8 (destruct r as [|? r]; [discriminate Hlen|]).
  destruct r; [|discriminate Hlen]. cbn [sum_lanes] in Hx.
  apply add_exact in Hx as (x1 & x2 & H1 & H2 & ->).
  apply add_exact in H1 as (x3 & x4 & H3 & H4 & ->).
  apply add_exact in H2 as (x5 & x6 & H5 & H6 & ->).
  apply add_exact in H3 as (q0 & q1 & ? & ? & ->).
  apply add_exact in H4 as (q2 & q3 & ? & ? & ->).
  apply add_exact in H5 as (q4 & q5 & ? & ? & ->).
  apply add_exact in H6 as (q6 & q7 & ? & ? & ->).
  exists [q0; q1; q2; q3; q4; q5; q6; q7]. split.
  - cbn [map]. congruence.
  - simpl. ring.
Qed.

Lemma pairwise_sum_exact fuel : forall (a : list checked) r,
  (length a <= fuel)%nat ->
  snd (pairwise_sum fuel a) = Some r ->
  exists qs, map snd a = map Some qs /\ r = Qcsum qs.
Proof.
  assert (Hsmall : forall (a : list checked) r,
    snd (if (length a <? 8)%nat then fold_left num_add a num_zero
         else let (lanes, rest) :=
                add_blocks (length a / 8 - 1) (firstn 8 a) (skipn 8 a) in
              fold_left num_add rest (sum_lanes lanes)) = Some r ->
    exists qs, map snd a = map Some qs /\ r = Qcsum qs).
  { intros a r Hr. destruct (length a <? 8)%nat eqn:Hn.
    - apply fold_left_exact in Hr as (x & qs & Hx & Hqs & ->).
      rewrite zero_exact in Hx. injection Hx as <-.
      exists qs. split; [assumption | ring].
    - apply Nat.ltb_ge in Hn.
      pose proof (Nat.Div0.mul_div_le (length a) 8) as Hdiv.
      destruct (add_blocks_exact (length a / 8 - 1) (firstn 8 a) (skipn 8 a))
        as [Hlen Hex].
      { rewrite length_firstn. lia. }
      { rewrite length_skipn. lia. }
      destruct (add_blocks _ (firstn 8 a) (skipn 8 a)) as [lanes rest].
      cbn [fst snd] in Hlen, Hex.
      apply fold_left_exact in Hr as (x & qrest' & Hx & Hqrest' & ->).
      apply sum_lanes_exact in Hx as (q' & Hq' & ->); [|exact Hlen].
      destruct (Hex q' qrest' Hq' Hqrest') as (qr & qrest & Hqr & Hqrest & Hsum).
      exists (qr ++ qrest)%list. split.
      + now apply (exact_split 8).
      + now rewrite Qcsum_app, Hsum. }
  induction fuel as [|fuel IH]; intros a r Hfuel Hr; cbn [pairwise_sum] in Hr.
  - apply Hsmall. destruct (length a <? 8)%nat; [exact Hr|].
    destruct (length a <=? 128)%nat eqn:Hn; [exact Hr|].
    apply Nat.leb_gt in Hn. lia.
  - destruct (length a <? 8)%nat eqn:H8;
      [apply Hsmall; now rewrite H8|].
    destruct (length a <=? 128)%nat eqn:Hn;
      [apply Hsmall; now rewrite H8|].
    apply Nat.leb_gt in Hn. destruct (halves_shorter _ Hn) as [H1 H2].
    apply add_exact in Hr as (x & y & Hx & Hy & ->).
    apply IH in Hx as (q1 & Hq1 & ->); [|rewrite length_firstn; lia].
    apply IH in Hy as (q2 & Hq2 & ->); [|rewrite length_skipn; lia].
    exists (q1 ++ q2)%list. split.
    + now apply (exact_split (length a / 2 - (length a / 2) mod 8)).
    + now rewrite Qcsum_app.
Qed.

Lemma np_sum_exact (a : list checked) r :
  snd (np_sum a) = Some r ->
  exists qs, map snd a = map Some qs /\ r = Qcsum qs.
Proof.
  unfold np_sum. intros Hr.
  apply add_exact in Hr as (x & y & Hx & Hy & ->).
  rewrite zero_exact in Hx. injection Hx as <-.
  apply pairwise_sum_exact in Hy as (qs & Hqs & ->); [|apply le_n].
  exists qs. split; [assumption | ring].
Qed.

Lemma exact_length (a : list checked) (qs : list Qc) :
  map snd a = map Some qs -> length qs = length a.
Proof. intros Hqs. apply (f_equal (@length _)) in Hqs. now rewrite !length_map in Hqs. Qed.

Lemma np_mean_exact (a : list checked) r :
  snd (np_mean a) = Some r ->
  exists qs,
    map snd a = map Some qs /\ r = arithmetic_mean qs /\ a <> [] /\
    exact_value (fst (np_mean a)) = Some r.
Proof.
  unfold np_mean. intros Hr.
  apply div_exact in Hr as (x & y & Hx & Hy & Hy0 & -> & Hv).
  apply np_sum_exact in Hx as (qs & Hqs & ->).
  apply of_nat_exact in Hy. subst y.
  exists qs. repeat split; [assumption| | |assumption].
  - unfold arithmetic_mean, count. now rewrite (exact_length _ _ Hqs).
  - intros ->. now apply Hy0.
Qed.

Lemma deviations_exact (m : checked) qm (l : list checked) : forall qx,
  snd m = Some qm ->
  map snd (map (fun d => (d * d)%num) (map (fun v => (v - m)%num) l)) = map Some qx ->
  exists ql,
    map snd l = map Some ql /\
    qx = map (fun q => (q - qm) * (q - qm)) ql.
Proof.
  induction l as [|v l IH]; intros qx Hm Hqx; cbn [map] in Hqx.
  - destruct qx; [|discriminate]. now exists [].
  - destruct qx as [|c qx]; [discriminate|]. cbn [map] in Hqx.
    injection Hqx as Hc Hqx.
    change (snd ((v - m) * (v - m))%num = Some c) in Hc.
    destruct (IH qx Hm Hqx) as (ql & Hql & ->).
    apply mul_exact in Hc as (d1 & d2 & Hd1 & Hd2 & ->).
    rewrite Hd1 in Hd2. injection Hd2 as <-.
    apply sub_exact in Hd1 as (qv & qm' & Hv & Hm' & ->).
    rewrite Hm in Hm'. injection Hm' as <-.
    exists (qv :: ql). cbn [map]. now rewrite Hv, Hql.
Qed.

Lemma np_var_exact (a : list checked) r :
  snd (np_var 0 a) = Some r ->
  exists qs, map snd a = map Some qs /\ r = population_variance qs.
Proof.
  unfold np_var. cbv zeta. rewrite Nat.sub_0_r. intros Hr.
  apply div_exact in Hr as (x & y & Hx & Hy & Hy0 & -> & _).
  apply of_nat_exact in Hy. subst y.
  apply np_sum_exact in Hx as (qx & Hqx & ->).
  destruct a as [|v a]; [now contradiction Hy0|].
  assert (exists qm, snd (np_mean (v :: a)) = Some qm) as [qm Hm].
  { cbn [map] in Hqx. destruct qx as [|c qx]; [discriminate|].
    cbn [map] in Hqx. injection Hqx as Hc _.
    change (snd ((v - np_mean (v :: a)) * (v - np_mean (v :: a)))%num = Some c)
      in Hc.
    apply mul_exact in Hc as (d1 & _ & Hd1 & _).
    apply sub_exact in Hd1 as (_ & qm & _ & Hm & _). now exists qm. }
  destruct (deviations_exact _ qm _ _ Hm Hqx) as (ql & Hql & ->).
  apply np_mean_exact in Hm as (qs & Hqs & -> & _).
  rewrite Hql in Hqs. apply map_Some_inj in Hqs. subst ql.
  exists qs. split; [assumption|].
  unfold population_variance, count. now rewrite (exact_length _ _ Hql).
Qed.

End Exactness.

Section ExactAggregation.
Local Open Scope Qc_scope.

Lemma aggregate_checked (values : list float) :
  fst (mean (aggregate (map inject values))) = mean (aggregate values) /\
  fst (sd (aggregate (map inject values))) = sd (aggregate values).
Proof.
  assert (Hv : map fst (map inject values) = values).
  { rewrite map_map. cbn [inject fst]. apply map_id. }
  unfold aggregate. cbn [mean sd]. split.
  - rewrite (np_mean_hom (A := checked) (fst : checked -> float))
      by reflexivity.
    f_equal. exact Hv.
  - rewrite (np_std_hom (A := checked) (fst : checked -> float))
      by reflexivity.
    f_equal. exact Hv.
Qed.

(** C2, as the program has it. [simulate] returns [aggregate] of the
    collected values, computed by numpy on binary64, where sums overflow
    and every operation rounds. When the values are such that no
    operation of [mean()] and [std()] is inexact, there is at least one
    value, every value is finite, and the floats returned stand for the
    arithmetic mean of the values and for their population standard
    deviation: the non-negative number whose square is the sum of the
    squared deviations from the mean divided by the count N. *)
Theorem aggregate_mean_and_population_sd (values : list float) (qm qs : Qc) :
  exact_aggregate values = Some (qm, qs) ->
  exists results : list Qc,
    values <> [] /\
    map exact_value values = map Some results /\
    exact_value (mean (aggregate values)) = Some qm /\
    exact_value (sd (aggregate values)) = Some qs /\
    qm = arithmetic_mean results /\
    is_population_sd qs results.
Proof.
  unfold exact_aggregate. cbv zeta.
  destruct (aggregate_checked values) as [<- <-].
  unfold aggregate. cbn [mean sd].
  destruct (snd (np_mean (map inject values))) as [m|] eqn:Hm; [|discriminate].
  destruct (snd (np_std 0 (map inject values))) as [s|] eqn:Hs; [|discriminate].
  intros [= -> ->].
  apply np_mean_exact in Hm as (results & Hres & -> & Hne & Hvm).
  apply sqrt_exact in Hs as (x & Hx & Hsq & Hpos & Hvs).
  apply np_var_exact in Hx as (results' & Hres' & ->).
  rewrite Hres in Hres'. apply map_Some_inj in Hres'. subst results'.
  exists results. repeat split; try assumption.
  - intros ->. now apply Hne.
  - rewrite map_map in Hres. exact Hres.
Qed.

End ExactAggregation.

(* ------------------------------------------------------------------ *)
(** ** The aggregation, on binary64 *)

Section Binary64.
Local Open Scope float_scope.

(** A float is finite when its specification is a zero or a finite
    number, and is one of nan, infinity and -infinity otherwise. *)
Lemma SFeqb_refl_finite s m e :
  SFeqb (S754_finite s m e) (S754_finite s m e) = true.
Proof.
  unfold SFeqb, SFcompare. rewrite Z.compare_refl.
  pose proof (Pos.compare_cont_refl m Eq) as Hm.
  destruct s; now rewrite Hm.
Qed.

Lemma isfinite_true x :
  isfinite x = true ->
  (exists s, Prim2SF x = S754_zero s) \/
  (exists s m e, Prim2SF x = S754_finite s m e).
Proof.
  unfold isfinite, is_nan, is_infinity.
  rewrite !FloatAxioms.eqb_spec, FloatAxioms.abs_spec.
  destruct (Prim2SF x) as [s|s| |s m e]; intros Hx; eauto.
  - destruct s; vm_compute in Hx; discriminate.
  - vm_compute in Hx. discriminate.
Qed.

Lemma isfinite_false x :
  isfinite x = false -> x = nan \/ x = infinity \/ x = neg_infinity.
Proof.
  unfold isfinite, is_nan, is_infinity.
  rewrite !FloatAxioms.eqb_spec, FloatAxioms.abs_spec. intros Hx.
  rewrite <- (SF2Prim_Prim2SF x).
  destruct (Prim2SF x) as [s|s| |s m e].
  - destruct s; vm_compute in Hx; discriminate.
  - destruct s; auto.
  - auto.
  - rewrite SFeqb_refl_finite in Hx. simpl in Hx. discriminate.
Qed.

Lemma float_sub_diag x : isfinite x = true -> x - x = 0.
Proof.
  intros Hx. apply Prim2SF_inj. rewrite sub_spec.
  destruct (isfinite_true x Hx) as [[s ->]|(s & m & e & ->)].
  - now destruct s.
  - unfold SF64sub, SFsub. now rewrite Z.sub_diag.
Qed.

(** Division by 1 is exact: the quotient of the mantissa, shifted to
    the precision of the format, by 2^52 has no remainder, and rounding
    gives back the mantissa and the exponent. *)
Lemma SFdiv_one_finite s m e :
  valid_binary (S754_finite s m e) = true ->
  SF64div (S754_finite s m e) (S754_finite false 4503599627370496 (-52)) =
  S754_finite s m e.
Proof.
  unfold SpecFloat.valid_binary, bounded, canonical_mantissa, fexp,
    SpecFloat.emin, prec, emax.
  intros Hv. apply andb_prop in Hv as [Hc Hb].
  apply Z.eqb_eq in Hc. apply Z.leb_le in Hb.
  unfold fexp, SpecFloat.emin in Hc.
  set (d := Z.pos (digits2_pos m)) in *.
  assert (Hd : (0 < d)%Z) by (subst d; lia).
  assert (Hcase : ((e = -1074 /\ d <= 53) \/ (d = 53 /\ -1074 < e))%Z) by lia.
  unfold SF64div, SFdiv, SFdiv_core_binary.
  change (Zdigits2 (Z.pos m)) with d.
  change (Zdigits2 (Z.pos 4503599627370496)) with 53%Z.
  unfold fexp, SpecFloat.emin, prec, emax.
  destruct Hcase as [[He Hd53] | [Hd53 He]].
  - replace (Z.min _ (e - -52))%Z with (-1074)%Z by lia.
    replace (e - -52 - -1074)%Z with 52%Z by lia.
    assert (Hq : Z.div_eucl (Z.shiftl (Z.pos m) 52) (Z.pos 4503599627370496)
                 = (Z.pos m, 0%Z)).
    { rewrite Z.shiftl_mul_pow2 by lia.
      change (2 ^ 52)%Z with 4503599627370496%Z.
      generalize (Z.div_eucl_eq (Z.pos m * 4503599627370496)
                    4503599627370496 ltac:(lia)).
      generalize (Z.mod_pos_bound (Z.pos m * 4503599627370496)
                    4503599627370496 ltac:(lia)).
      unfold Z.modulo. destruct (Z.div_eucl _ _) as [q r].
      intros. f_equal; nia. }
    rewrite Hq.
    unfold binary_round_aux, shr_fexp, fexp, SpecFloat.emin.
    change (Zdigits2 (Z.pos m)) with d.
    change (new_location 4503599627370496 0) with loc_Exact.
    cbn [shr_record_of_loc].
    replace (Z.max (d + -1074 - 53) (3 - 1024 - 53) - -1074)%Z with 0%Z by lia.
    cbn [shr shr_m loc_of_shr_record round_nearest_even shr_record_of_loc].
    change (Zdigits2 (Z.pos m)) with d.
    replace (Z.max (d + -1074 - 53) (3 - 1024 - 53) - -1074)%Z with 0%Z by lia.
    cbn [shr shr_m]. subst e. now destruct s.
  - replace (Z.min _ (e - -52))%Z with (e - 1)%Z by lia.
    replace (e - -52 - (e - 1))%Z with 53%Z by lia.
    assert (Hq : Z.div_eucl (Z.shiftl (Z.pos m) 53) (Z.pos 4503599627370496)
                 = (Z.pos m~0, 0%Z)).
    { rewrite Z.shiftl_mul_pow2 by lia.
      change (2 ^ 53)%Z with 9007199254740992%Z.
      generalize (Z.div_eucl_eq (Z.pos m * 9007199254740992)
                    4503599627370496 ltac:(lia)).
      generalize (Z.mod_pos_bound (Z.pos m * 9007199254740992)
                    4503599627370496 ltac:(lia)).
      unfold Z.modulo. destruct (Z.div_eucl _ _) as [q r].
      intros. f_equal; nia. }
    rewrite Hq.
    unfold binary_round_aux, shr_fexp, fexp, SpecFloat.emin.
    change (new_location 4503599627370496 0) with loc_Exact.
    cbn [shr_record_of_loc].
    change (Zdigits2 (Z.pos m~0)) with (Z.pos (Pos.succ (digits2_pos m))).
    rewrite Pos2Z.inj_succ. fold d. rewrite Hd53.
    replace (Z.max (Z.succ 53 + (e - 1) - 53) (3 - 1024 - 53) - (e - 1))%Z
      with 1%Z by lia.
    cbn [shr SpecFloat.iter_pos shr_1 shr_m loc_of_shr_record round_nearest_even
         shr_record_of_loc orb].
    change (Zdigits2 (Z.pos m)) with d. rewrite Hd53.
    replace (Z.max (53 + (e - 1 + 1) - 53) (3 - 1024 - 53) - (e - 1 + 1))%Z
      with 0%Z by lia.
    cbn [shr shr_m].
    replace (e - 1 + 1)%Z with e by lia.
    destruct (Z.leb_spec e (1024 - 53)); [|lia]. now destruct s.
Qed.

Lemma float_div_one x : x / 1 = x.
Proof.
  apply Prim2SF_inj. rewrite div_spec.
  change (Prim2SF 1) with (S754_finite false 4503599627370496 (-52)).
  pose proof (Prim2SF_valid x) as Hv.
  destruct (Prim2SF x) as [s|s| |s m e].
  - now destruct s.
  - now destruct s.
  - reflexivity.
  - now apply SFdiv_one_finite.
Qed.

(** Adding a float to +0.0 gives the float back, except that -0.0
    becomes +0.0. *)
Lemma float_zero_add x : Prim2SF x <> S754_zero true -> zero + x = x.
Proof.
  intros Hx. apply Prim2SF_inj. rewrite add_spec.
  change (Prim2SF zero) with (S754_zero false).
  destruct (Prim2SF x) as [s|s| |s m e]; try reflexivity.
  destruct s; [congruence | reflexivity].
Qed.

Lemma float_eqb_refl x : is_nan x = false -> (x =? x) = true.
Proof.
  unfold is_nan. intros Hx. now destruct (x =? x).
Qed.

(** One value. Its mean is the value itself, but +0.0 when the value is
    -0.0: the sum begins at +0.0. Its standard deviation is 0.0 when the
    value is finite, and NaN when it is not (the deviation of an
    infinity from itself is inf - inf). *)
Lemma aggregate_single (x : float) :
  (x <> neg_zero -> mean (aggregate [x]) = x) /\
  (is_nan x = false -> (mean (aggregate [x]) =? x) = true) /\
  (isfinite x = true -> sd (aggregate [x]) = 0) /\
  (isfinite x = false -> sd (aggregate [x]) = nan).
Proof.
  destruct (Prim2SF x) as [s|s| |s m e] eqn:Hx.
  1-3: rewrite <- (SF2Prim_Prim2SF x), Hx.
  - destruct s; repeat split; intros H; try reflexivity; try discriminate H.
    now contradiction H.
  - destruct s; repeat split; intros H; try reflexivity; discriminate H.
  - repeat split; intros H; try reflexivity; discriminate H.
  - assert (Hz : Prim2SF x <> S754_zero true) by (rewrite Hx; discriminate).
    assert (Hm : mean (aggregate [x]) = x).
    { unfold aggregate, np_mean, np_sum.
      cbn [mean length pairwise_sum Nat.ltb Nat.leb fold_left].
      cbn [num_add num_div num_zero num_of_nat float64_number].
      change (of_uint63 (Uint63.of_Z (Z.of_nat 1))) with 1.
      now rewrite !(float_zero_add x Hz), float_div_one. }
    assert (Hf : isfinite x = true).
    { destruct (isfinite x) eqn:Hf; [reflexivity|].
      destruct (isfinite_false x Hf) as [-> | [-> | ->]]; discriminate Hx. }
    repeat split; intros H.
    + exact Hm.
    + rewrite Hm. now apply float_eqb_refl.
    + unfold aggregate in *. cbn [mean sd] in *.
      unfold np_std, np_var. cbv zeta. rewrite Hm.
      cbn [map]. cbn [num_sub float64_number]. rewrite (float_sub_diag x Hf).
      reflexivity.
    + congruence.
Qed.

End Binary64.

Section Binary64Claims.
Context {E : Env float}.
Local Open Scope float_scope.

(** C9, as the program has it. A run of one trial that returns has as
    mean the value of its one evaluation, except that the mean of -0.0
    is +0.0; so the mean compares equal to the value unless the value is
    a NaN. Its sd is 0.0 when the value is finite, and NaN when it is an
    infinity or a NaN. *)
Theorem single_trial_mean_and_sd (self : MonteCarloSimulator) res final :
  num_iterations self = 1%nat ->
  simulate self = (Ok res, final) ->
  exists v,
    py_eval (snd (refresh_bov self)) = (Ok v, final) /\
    (v <> neg_zero -> mean res = v) /\
    (is_nan v = false -> (mean res =? v) = true) /\
    (isfinite v = true -> sd res = 0) /\
    (isfinite v = false -> sd res = nan).
Proof.
  intros HN Hrun. rewrite simulate_unfold, HN, simulate_loop_S in Hrun.
  destruct (py_eval (snd (refresh_bov self))) as [[v|e] evaluated];
    [|discriminate].
  simpl in Hrun. injection Hrun as <- <-.
  exists v. split; [reflexivity | apply aggregate_single].
Qed.

End Binary64Claims.

(* ------------------------------------------------------------------ *)
(** ** The formulas of the runnable world *)

Section Formulas.

(** An expression without an assignment leaves the globals as they
    are, whether it has a value or raises. *)
Lemma eval_expr_assignment_free e :
  assignment_free e = true ->
  forall globals, snd (eval_expr e globals) = globals.
Proof.
  induction e as [x | id | l IHl op r IHr | target value IH];
    cbn [assignment_free]; intros Hfree globals; try discriminate.
  - reflexivity.
  - cbn [eval_expr]. now destruct (dict_get globals id) as [[| | |]|].
  - apply andb_prop in Hfree as [Hl Hr]. cbn [eval_expr].
    specialize (IHl Hl globals).
    destruct (eval_expr l globals) as [[x|ex] globals1]; cbn [snd] in IHl;
      [|exact IHl].
    specialize (IHr Hr globals1).
    destruct (eval_expr r globals1) as [[y|ey] globals2]; cbn [snd] in *;
      congruence.
Qed.

Lemma assignment_free_assigns_nothing e :
  assignment_free e = true -> assigns_nothing (E := standin) e.
Proof. intros Hfree globals. now apply eval_expr_assignment_free. Qed.

(** An assignment expression binds its target in the bag: after the one
    trial of [walrus] the bag has the key z, with the value of a + b. *)
Lemma walrus_binds_a_name :
  bov (snd (simulate walrus)) =
    [("a", VNum 1%float); ("b", VNum 2%float); ("__builtins__", VBuiltins);
     ("z", VNum 3%float)].
Proof. reflexivity. Qed.

End Formulas.

(* ------------------------------------------------------------------ *)
(** ** The properties at work on runs of the model *)

Section Runs.
Local Open Scope float_scope.

Ltac distinct_strings :=
  repeat (constructor; [simpl; intuition discriminate|]); constructor.

(** The example of mcs.py: the refresh reports success and keeps the
    keys of the bag. *)
Lemma refresh_road_cost :
  exists self',
    refresh_bov road_cost = (Ok true, self') /\
    dict_keys (bov self') = ["unit_cost_km"; "total_road_length"].
Proof.
  destruct (refresh_bov_overwrites_governed_keys road_cost _ eq_refl
              ltac:(distinct_strings)) as (self' & Hr & Hk & _).
  exists self'. split; [exact Hr | exact Hk].
Defined.

(** The formula of [unbound_name] raises NameError in the first of its
    two trials: the loop does not return two results. *)
Lemma loop_stops_at_failed_evaluation :
  ~ exists values final,
      simulate_loop (num_iterations unbound_name) [] unbound_name
        = (Ok values, final) /\
      length values = num_iterations unbound_name.
Proof.
  intros (values & final & Hrun & _). vm_compute in Hrun. discriminate.
Qed.

(** The second trial of [late_failure] divides by zero, and [simulate]
    raises ZeroDivisionError. *)
Lemma late_failure_raises :
  exists failed, simulate late_failure = (Raise ZeroDivisionError, failed).
Proof.
  eexists.
  eapply evaluation_failure_ends_the_run with (k := 1%nat).
  - econstructor; [reflexivity | reflexivity | constructor].
  - simpl. lia.
  - reflexivity.
Defined.

(** In [degraded] the sampling of [a] raises, and yet the refresh goes
    on to [b] and returns True. *)
Lemma sampling_exception_does_not_abort_refresh :
  get_random_sample_try nosuch_pdf degraded = (Raise Exception, degraded) /\
  fst (refresh_bov degraded) = Ok true /\
  bov (snd (refresh_bov degraded)) = [("a", VNum 0); ("b", VNum 5)].
Proof. repeat split; reflexivity. Qed.

(** With [flaky_table] the lookup of [b] raises: [a] has been refreshed,
    [b] and [c] are as they were, and the refresh returns False. *)
Lemma refresh_flaky :
  exists partial,
    refresh_bov flaky = (Ok false, partial) /\
    dict_get (bov partial) "c" = Some (VNum 3).
Proof.
  destruct (refresh_bov_aborts_on_failed_lookup flaky ["a"] "b" ["c"] KeyError
              eq_refl) as [(partial & _ & Hr & Hframe) _].
  - intros k' [<- | []]. now eexists.
  - reflexivity.
  - exists partial. split; [exact Hr|].
    rewrite Hframe; [reflexivity|]. simpl. intuition discriminate.
Defined.

Lemma nosuch_not_registered (name : string) :
  dict_get nosuch_pdf "name" = Some (VStr name) ->
  ~ registered (scalar := float) name.
Proof.
  intros [= <-]. unfold registered. simpl. intuition discriminate.
Qed.

(** The unregistered family of [degraded] yields the sample 0. *)
Lemma nosuch_samples_zero :
  get_random_sample nosuch_pdf degraded = (Ok (VNum 0), degraded).
Proof.
  exact (proj1 (proj2 (unknown_family_samples_zero nosuch_pdf degraded
                         nosuch_not_registered))).
Defined.

Lemma sd_is_mandatory : In "sd" ["mean"; "sd"].
Proof. simpl. auto. Qed.

Lemma incomplete_keys_distinct : NoDup (dict_keys (bov incomplete)).
Proof. distinct_strings. Qed.

(** A normal pdf without sd yields the sample 0, and the refresh of
    [incomplete], whose key a has that pdf, returns True and leaves 0
    under a. *)
Lemma normal_without_sd_samples_zero :
  get_random_sample normal_without_sd incomplete = (Ok (VNum 0), incomplete) /\
  exists self',
    refresh_bov incomplete = (Ok true, self') /\
    dict_get (bov self') "a" = Some (VNum 0).
Proof.
  pose proof (missing_parameter_samples_zero normal_without_sd incomplete
                "normal" ["mean"; "sd"] "sd" eq_refl eq_refl sd_is_mandatory
                eq_refl) as (_ & Hsample & _ & _ & _ & Hrefresh).
  split; [exact Hsample|].
  exact (Hrefresh _ [] "a" ["b"] eq_refl incomplete_keys_distinct eq_refl
           eq_refl).
Defined.

(** In [unknown_family] the key a has an entry in the table, and the
    refresh overwrites its 7 with a 0 that was not drawn: the generator
    is where it was. *)
Lemma unregistered_family_is_not_sampled :
  obj_get (variable_pdfs unknown_family) "a" = Ok (Some nosuch_pdf) /\
  dict_get (bov unknown_family) "a" = Some (VNum 7) /\
  refresh_bov unknown_family =
    (Ok true, set_bov [("a", VNum 0)] unknown_family) /\
  rng (snd (refresh_bov unknown_family)) = rng unknown_family.
Proof. repeat split; reflexivity. Qed.

(** A poisson pdf with its lambda yields the sample 0. *)
Lemma poisson_samples_zero :
  get_random_sample poisson_pdf degraded = (Ok (VNum 0), degraded).
Proof.
  exact (proj2 (poisson_and_wald_samples_are_zero poisson_pdf degraded
                  (or_introl eq_refl))).
Defined.

(** The formula of mcs.py assigns nothing: after the run the keys are
    the two of the bag and [__builtins__]. *)
Lemma road_cost_keys_after_run :
  dict_keys (bov (snd (py_eval road_cost))) =
    ["unit_cost_km"; "total_road_length"; "__builtins__"] /\
  dict_keys (bov (snd (simulate road_cost))) =
    ["unit_cost_km"; "total_road_length"; "__builtins__"].
Proof.
  exact (proj2 (proj2 (proj2 (bag_keys_gain_only_builtins road_cost)))
           (assignment_free_assigns_nothing (transfer_equation road_cost)
              eq_refl)).
Defined.

(** After the example of mcs.py has run, its bag has a third key. *)
Lemma road_cost_bag_gains_a_key :
  dict_keys (bov (snd (simulate road_cost))) =
    ["unit_cost_km"; "total_road_length"; "__builtins__"] /\
  dict_keys (bov (snd (simulate road_cost))) <> dict_keys (bov road_cost).
Proof. split; [reflexivity | vm_compute; discriminate]. Qed.

(** One trial whose value overflows: the sd of the result is NaN, which
    no comparison finds equal to 0.0. *)
Lemma overflow_sd_is_nan :
  num_iterations overflow = 1%nat /\
  fst (simulate overflow) = Ok {| mean := infinity; sd := nan |} /\
  (nan =? 0) = false.
Proof. repeat split; reflexivity. Qed.

(** One trial of value 3: mean 3 and sd 0. *)
Lemma one_trial_result :
  exists v,
    py_eval (snd (refresh_bov one_trial)) = (Ok v, snd (simulate one_trial)) /\
    (v <> neg_zero -> mean (aggregate [3]) = v) /\
    (is_nan v = false -> (mean (aggregate [3]) =? v) = true) /\
    (isfinite v = true -> sd (aggregate [3]) = 0) /\
    (isfinite v = false -> sd (aggregate [3]) = nan).
Proof.
  exact (single_trial_mean_and_sd one_trial (aggregate [3])
           (snd (simulate one_trial)) eq_refl eq_refl).
Defined.

End Runs.

(** The values 0 and 2: every operation is exact, the mean is 1 and the
    population standard deviation is 1. *)
Lemma aggregate_0_2 :
  exists qm qs : Qc,
    (exists results : list Qc,
       [0; 2]%float <> [] /\
       map exact_value [0; 2]%float = map Some results /\
       exact_value (mean (aggregate [0; 2]%float)) = Some qm /\
       exact_value (sd (aggregate [0; 2]%float)) = Some qs /\
       qm = arithmetic_mean results /\
       is_population_sd qs results) /\
    qm = Q2Qc 1 /\ qs = Q2Qc 1.
Proof.
  eexists. eexists. split.
  - apply (aggregate_mean_and_population_sd [0; 2]%float).
    vm_compute. reflexivity.
  - split; apply Qc_is_canon; reflexivity.
Defined.

(** The value 2^1023, twice: the arithmetic mean is 2^1023 and the
    population standard deviation is 0, but the sum overflows, and the
    mean and the sd returned are both infinite. *)
Lemma overflowing_sum_gives_infinite_mean_and_sd :
  aggregate [0x1p+1023; 0x1p+1023]%float = {| mean := infinity; sd := infinity |} /\
  exact_value infinity = None /\
  exists q,
    map exact_value [0x1p+1023; 0x1p+1023]%float = map Some [q; q] /\
    arithmetic_mean [q; q] = q /\
    is_population_sd (Q2Qc 0) [q; q].
Proof.
  split; [reflexivity|]. split; [reflexivity|].
  eexists. split; [reflexivity|]. split.
  - apply Qc_is_canon. vm_compute. reflexivity.
  - split; [discriminate|]. apply Qc_is_canon. vm_compute. reflexivity.
Qed.

(** Three times the float nearest to 0.1: the mean returned is the next
    float up, and the sd returned is 2^-56, where the values have
    themselves as mean and 0 as sd. *)
Lemma rounded_sum_of_three_tenths :
  aggregate [0x1.999999999999ap-4; 0x1.999999999999ap-4; 0x1.999999999999ap-4]%float
  = {| mean := 0x1.999999999999bp-4%float; sd := 0x1p-56%float |} /\
  exact_aggregate
    [0x1.999999999999ap-4; 0x1.999999999999ap-4; 0x1.999999999999ap-4]%float
  = None.
Proof. split; vm_compute; reflexivity. Qed.

(** The floats returned for 0 and 2 are mean 1.0 and sd 1.0, the
    population figure (the sample figure would be 1.4142...). *)
Lemma aggregate_0_2_binary64 :
  aggregate [0%float; 2%float] = {| mean := 1%float; sd := 1%float |}.
Proof. reflexivity. Qed.

(* ================================================================== *)
(** * Further properties of the code *)

(* ------------------------------------------------------------------ *)
(** ** The samplers that reach the law *)

Section WorkingSamplers.
Context {scalar : Type} `{E : Env scalar}.
Implicit Types self : MonteCarloSimulator.

(** For each of the nine samplers that name their arguments as numpy
    does, and a pdf that binds every mandatory key to a number, the
    sample is what the law of the family draws from those numbers, taken
    in the order of the docstring, and the bit generator moves on as the
    law says; when the law rejects the numbers, the sample is 0 and the
    generator stays. *)
Theorem sampler_draws_from_law (p : pdf) self name m ks xs :
  dict_get p "name" = Some (VStr name) ->
  dict_get numpy_method name = Some m ->
  dict_get mandatory_keys name = Some ks ->
  map (dict_get p) ks = map (fun x => Some (VNum x)) xs ->
  get_random_sample p self =
    match law m xs (rng self) with
    | Ok (x, g) => (Ok (VNum x), set_rng g self)
    | Raise _ => (Ok (VNum num_zero), self)
    end.
Proof. exact (get_random_sample_by_law p self name m ks xs). Qed.

End WorkingSamplers.

(* ------------------------------------------------------------------ *)
(** ** What a refresh reports, reads and forgets *)

Section RefreshMore.
Context {scalar : Type} `{E : Env scalar}.
Implicit Types self s : MonteCarloSimulator.

(** A loop that ran to its end found every key in the table object. *)
Lemma for_each_refresh_ran keys : forall self self',
  for_each keys refresh_key self = (Ok tt, self') ->
  forall k, In k keys -> exists o, obj_get (variable_pdfs self) k = Ok o.
Proof.
  induction keys as [|key keys IH]; intros self self' Hrun k Hin;
    [contradiction|].
  simpl in Hrun. unfold bind in Hrun.
  destruct (refresh_key key self) as [r1 s1] eqn:H1.
  destruct (refresh_key_frame key self _ _ H1) as ((_ & Hp & _) & _).
  pose proof (refresh_key_cases key self) as Hc.
  destruct r1 as [[]|e]; [|discriminate].
  destruct Hin as [<- | Hin].
  - destruct (obj_get (variable_pdfs self) key) as [o|e]; [eauto|congruence].
  - rewrite <- Hp. eapply IH; eassumption.
Qed.

(** [refresh_bov] never raises, whatever object the pdf table is. It
    returns True exactly when the table's [get] returned for every key of
    the bag, and either way it leaves the formula, the table, the
    iteration count and the keys of the bag as they were. *)
Theorem refresh_bov_reports_failed_lookups self :
  exists ok self',
    refresh_bov self = (Ok ok, self') /\
    same_fields self self' /\
    dict_keys (bov self') = dict_keys (bov self) /\
    (ok = true <->
     forall k, In k (dict_keys (bov self)) ->
               exists o, obj_get (variable_pdfs self) k = Ok o).
Proof.
  destruct (refresh_bov_returns self) as (ok & self' & Hr).
  exists ok, self'. split; [exact Hr|].
  destruct (refresh_bov_frame self ok self' Hr) as [Hf Hk].
  split; [exact Hf|]. split; [exact Hk|].
  unfold refresh_bov, try_except, bind in Hr.
  destruct (for_each (dict_keys (bov self)) refresh_key self)
    as [[[]|e] s1] eqn:Hloop; unfold ret in Hr; injection Hr as <- <-.
  - split; [intros _|reflexivity]. eapply for_each_refresh_ran; eassumption.
  - split; [discriminate|]. intros Hall.
    destruct (for_each_refresh_ok _ self Hall) as [s2 Hok]. congruence.
Qed.

(** What a sampler does is a function of the bit generator alone. *)
Lemma rng_call_by_rng m args kwargs s1 s2 :
  rng s1 = rng s2 ->
  (exists v g, rng_call m args kwargs s1 = (Ok v, set_rng g s1) /\
               rng_call m args kwargs s2 = (Ok v, set_rng g s2)) \/
  (exists e, rng_call m args kwargs s1 = (Raise e, s1) /\
             rng_call m args kwargs s2 = (Raise e, s2)).
Proof.
  intros Hg. unfold rng_call. rewrite Hg.
  destruct (Generator_draw m args kwargs (rng s2)) as [[v g]|e]; eauto.
Qed.

Lemma samplers_by_rng name sampler (p : pdf) s1 s2 :
  dict_get samplers name = Some sampler ->
  rng s1 = rng s2 ->
  (exists v g, sampler p s1 = (Ok v, set_rng g s1) /\
               sampler p s2 = (Ok v, set_rng g s2)) \/
  (exists e, sampler p s1 = (Raise e, s1) /\ sampler p s2 = (Raise e, s2)).
Proof.
  intros Hs Hg. apply dict_get_Some_In in Hs. simpl in Hs.
  repeat (destruct Hs as [Heq | Hs];
          [injection Heq as _ <-; now apply rng_call_by_rng |]).
  contradiction.
Qed.

Lemma get_random_sample_by_rng (p : pdf) s1 s2 :
  rng s1 = rng s2 ->
  exists v g,
    get_random_sample p s1 = (Ok v, set_rng g s1) /\
    get_random_sample p s2 = (Ok v, set_rng g s2).
Proof.
  intros Hg.
  assert (Hzero : exists v g,
            (Ok (VNum (scalar := scalar) num_zero), s1) = (Ok v, set_rng g s1) /\
            (Ok (VNum (scalar := scalar) num_zero), s2) = (Ok v, set_rng g s2)).
  { exists (VNum num_zero), (rng s1). rewrite set_rng_same, Hg, set_rng_same.
    auto. }
  unfold get_random_sample, try_except, get_random_sample_try.
  destruct (pdf_get p "name") as [|x|name|]; cbn [is_None orb samplers_get];
    try exact Hzero.
  destruct (dict_get samplers name) as [sampler|] eqn:Hs; [|exact Hzero].
  destruct (samplers_by_rng name sampler p s1 s2 Hs Hg)
    as [(v & g & -> & ->)|(e & -> & ->)]; [eauto | exact Hzero].
Qed.

(** Two objects with the same bag and generator, whose tables answer
    alike on the keys walked, go through the loop alike. *)
Lemma for_each_refresh_same_bag keys : forall s1 s2,
  bov s1 = bov s2 -> rng s1 = rng s2 ->
  (forall k, In k keys ->
     obj_get (variable_pdfs s1) k = obj_get (variable_pdfs s2) k) ->
  fst (for_each keys refresh_key s1) = fst (for_each keys refresh_key s2) /\
  bov (snd (for_each keys refresh_key s1)) =
    bov (snd (for_each keys refresh_key s2)) /\
  rng (snd (for_each keys refresh_key s1)) =
    rng (snd (for_each keys refresh_key s2)).
Proof.
  induction keys as [|key keys IH]; intros s1 s2 Hb Hg Ht; simpl; [auto|].
  unfold bind.
  pose proof (refresh_key_cases key s1) as C1.
  pose proof (refresh_key_cases key s2) as C2.
  rewrite <- (Ht key (in_eq _ _)) in C2.
  destruct (obj_get (variable_pdfs s1) key) as [[p|]|e].
  - destruct (get_random_sample_by_rng p s1 s2 Hg) as (v & g & G1 & G2).
    destruct C1 as (x1 & g1 & S1 & ->). destruct C2 as (x2 & g2 & S2 & ->).
    rewrite G1 in S1. rewrite G2 in S2.
    injection S1 as <- E1. injection S2 as <- E2.
    apply IH; simpl.
    + now rewrite Hb.
    + assert (R1 : rng (set_rng g s1) = rng (set_rng g1 s1)) by now rewrite E1.
      assert (R2 : rng (set_rng g s2) = rng (set_rng g2 s2)) by now rewrite E2.
      simpl in R1, R2. congruence.
    + intros k Hk. apply Ht. now right.
  - rewrite C1, C2. apply IH; auto using in_cons.
  - rewrite C1, C2. simpl. auto.
Qed.

(** A refresh consults the pdf table for the keys of the bag and for no
    other: two tables that answer alike on those keys, in objects built
    from the same other arguments, yield the same report, the same bag
    and the same state of the generator. *)
Theorem refresh_bov_reads_only_bag_keys f b (t1 t2 : mapping pdf) n g :
  (forall k, In k (dict_keys b) -> obj_get t1 k = obj_get t2 k) ->
  fst (refresh_bov (init f b t1 n g)) = fst (refresh_bov (init f b t2 n g)) /\
  bov (snd (refresh_bov (init f b t1 n g))) =
    bov (snd (refresh_bov (init f b t2 n g))) /\
  rng (snd (refresh_bov (init f b t1 n g))) =
    rng (snd (refresh_bov (init f b t2 n g))).
Proof.
  intros Ht.
  destruct (for_each_refresh_same_bag (dict_keys b)
              (init f b t1 n g) (init f b t2 n g) eq_refl eq_refl Ht)
    as (Hr & Hb & Hg).
  unfold refresh_bov, try_except, bind. cbn [bov init] in *.
  destruct (for_each (dict_keys b) refresh_key (init f b t1 n g))
    as [[[]|e1] s1];
  destruct (for_each (dict_keys b) refresh_key (init f b t2 n g))
    as [[[]|e2] s2]; simpl in *; try discriminate; auto.
Qed.

End RefreshMore.

(* ------------------------------------------------------------------ *)
(** ** What a run depends on, and what it leaves alone *)

Section RunMore.
Context {scalar : Type} `{E : Env scalar}.
Implicit Types self s : MonteCarloSimulator.

(** Two dicts with the same distinct keys, in the same order, and the
    same value under each key are the same dict. *)
Lemma dict_ext {V : Type} (d1 : pydict V) : forall d2,
  dict_keys d1 = dict_keys d2 ->
  NoDup (dict_keys d1) ->
  (forall k, dict_get d1 k = dict_get d2 k) ->
  d1 = d2.
Proof.
  induction d1 as [|[k v] d1 IH]; intros [|[k' v'] d2] Hk Hnd Hget;
    try discriminate; [reflexivity|].
  unfold dict_keys in Hk, Hnd. simpl in Hk, Hnd. injection Hk as <- Hk.
  apply NoDup_cons_iff in Hnd as [Hnin Hnd].
  pose proof (Hget k) as Hv. simpl in Hv. rewrite String.eqb_refl in Hv.
  injection Hv as <-. f_equal. apply IH; try assumption.
  intros k0. specialize (Hget k0). simpl in Hget.
  destruct (String.eqb k0 k) eqn:Hk0; [|exact Hget].
  apply String.eqb_eq in Hk0. subst k0.
  pose proof (proj2 (dict_has_not_In d1 k) Hnin) as H1.
  rewrite Hk in Hnin.
  pose proof (proj2 (dict_has_not_In d2 k) Hnin) as H2.
  unfold dict_has in H1, H2.
  destruct (dict_get d1 k), (dict_get d2 k); congruence.
Qed.

(** Through the loop over [pending], with a dict as table: the two bags
    come to agree on every key they agreed on, and on every key of
    [pending] that has a pdf. *)
Lemma for_each_refresh_agree (d : pydict pdf) pending : forall s1 s2,
  variable_pdfs s1 = of_dict d -> variable_pdfs s2 = of_dict d ->
  rng s1 = rng s2 ->
  exists s1' s2',
    for_each pending refresh_key s1 = (Ok tt, s1') /\
    for_each pending refresh_key s2 = (Ok tt, s2') /\
    rng s1' = rng s2' /\
    forall k,
      dict_get (bov s1) k = dict_get (bov s2) k \/
      (In k pending /\ dict_get d k <> None) ->
      dict_get (bov s1') k = dict_get (bov s2') k.
Proof.
  induction pending as [|key pending IH]; intros s1 s2 H1 H2 Hg.
  - exists s1, s2. repeat split; try assumption.
    intros k [Hk | [[] _]]. exact Hk.
  - simpl. unfold bind.
    pose proof (refresh_key_cases key s1) as C1.
    pose proof (refresh_key_cases key s2) as C2.
    rewrite H1 in C1. rewrite H2 in C2. simpl in C1, C2.
    destruct (dict_get d key) as [p|] eqn:Hd.
    + destruct (get_random_sample_by_rng p s1 s2 Hg) as (v & g & G1 & G2).
      destruct C1 as (x1 & g1 & S1 & ->). destruct C2 as (x2 & g2 & S2 & ->).
      rewrite G1 in S1. rewrite G2 in S2.
      injection S1 as -> E1. injection S2 as <- E2.
      assert (R1 : rng (set_rng g s1) = rng (set_rng g1 s1)) by now rewrite E1.
      assert (R2 : rng (set_rng g s2) = rng (set_rng g2 s2)) by now rewrite E2.
      simpl in R1, R2.
      destruct (IH (set_bov (dict_set (bov s1) key (VNum x1)) (set_rng g1 s1))
                   (set_bov (dict_set (bov s2) key (VNum x1)) (set_rng g2 s2)))
        as (s1' & s2' & L1 & L2 & Hg' & Hagree);
        [exact H1 | exact H2 | simpl; congruence |].
      exists s1', s2'. repeat split; try assumption.
      intros k Hk. apply Hagree. simpl.
      destruct (string_dec k key) as [->|Hne].
      * left. now rewrite !dict_get_set_same.
      * rewrite !dict_get_set_other by exact Hne.
        destruct Hk as [Hk | [[Heq | Hin] Hgov]]; auto. congruence.
    + rewrite C1, C2.
      destruct (IH s1 s2 H1 H2 Hg) as (s1' & s2' & L1 & L2 & Hg' & Hagree).
      exists s1', s2'. repeat split; try assumption.
      intros k Hk. apply Hagree.
      destruct Hk as [Hk | [[Heq | Hin] Hgov]]; auto. congruence.
Qed.

Lemma simulator_ext s1 s2 :
  transfer_equation s1 = transfer_equation s2 ->
  bov s1 = bov s2 ->
  variable_pdfs s1 = variable_pdfs s2 ->
  num_iterations s1 = num_iterations s2 ->
  rng s1 = rng s2 ->
  s1 = s2.
Proof. destruct s1, s2. simpl. intros; subst. reflexivity. Qed.

(** The values a bag starts with under the keys that have a pdf do not
    matter. Two objects that differ only there (same formula, table,
    iteration count and generator; bags with the same distinct keys, and
    the same values under the keys that have no pdf) are the same object
    after their first refresh, and their runs return the same. *)
Theorem initial_values_of_governed_keys_are_forgotten
    f (b1 b2 : pydict (PyVal scalar)) (d : pydict pdf) n g :
  dict_keys b1 = dict_keys b2 ->
  NoDup (dict_keys b1) ->
  (forall k, dict_get d k = None -> dict_get b1 k = dict_get b2 k) ->
  snd (refresh_bov (init f b1 (of_dict d) n g)) =
    snd (refresh_bov (init f b2 (of_dict d) n g)) /\
  fst (simulate (init f b1 (of_dict d) n g)) =
    fst (simulate (init f b2 (of_dict d) n g)).
Proof.
  intros Hkeys Hnd Hfree.
  set (s1 := init f b1 (of_dict d) n g). set (s2 := init f b2 (of_dict d) n g).
  destruct (for_each_refresh_agree d (dict_keys b1) s1 s2 eq_refl eq_refl eq_refl)
    as (s1' & s2' & L1 & L2 & Hg & Hagree).
  assert (R1 : refresh_bov s1 = (Ok true, s1')).
  { unfold refresh_bov, try_except, bind. cbn [bov s1 init]. now rewrite L1. }
  assert (R2 : refresh_bov s2 = (Ok true, s2')).
  { unfold refresh_bov, try_except, bind. cbn [bov s2 init].
    rewrite <- Hkeys. now rewrite L2. }
  destruct (refresh_bov_frame s1 true s1' R1) as ((T1 & P1 & N1) & K1).
  destruct (refresh_bov_frame s2 true s2' R2) as ((T2 & P2 & N2) & K2).
  assert (Hsame : s1' = s2').
  { apply simulator_ext.
    - now rewrite T1, T2.
    - apply dict_ext.
      + rewrite K1, K2. exact Hkeys.
      + rewrite K1. exact Hnd.
      + intros k. apply Hagree. cbn [bov s1 s2 init].
        destruct (dict_get d k) as [p|] eqn:Hd; [|left; now apply Hfree].
        destruct (in_dec string_dec k (dict_keys b1)) as [Hin|Hnin].
        * right. split; [exact Hin | congruence].
        * left.
          pose proof (proj2 (dict_has_not_In b1 k) Hnin) as H1.
          rewrite Hkeys in Hnin.
          pose proof (proj2 (dict_has_not_In b2 k) Hnin) as H2.
          unfold dict_has in H1, H2.
          destruct (dict_get b1 k), (dict_get b2 k); congruence.
    - now rewrite P1, P2.
    - now rewrite N1, N2.
    - exact Hg. }
  split; [now rewrite R1, R2|].
  rewrite !simulate_unfold.
  replace (num_iterations s2) with (num_iterations s1) by reflexivity.
  destruct (num_iterations s1) as [|m]; [reflexivity|].
  rewrite !simulate_loop_S, R1, R2. cbn [snd]. rewrite Hsame.
  destruct (py_eval s2') as [[v|e] s3]; [|reflexivity].
  now destruct (simulate_loop m ([] ++ [v]) s3) as [[vs|e] s4].
Qed.

Lemma py_eval_other_keys self k :
  assigns_nothing (transfer_equation self) ->
  k <> "__builtins__" ->
  dict_get (bov (snd (py_eval self))) k = dict_get (bov self) k.
Proof.
  intros Hpure Hk. rewrite (py_eval_pure self Hpure). unfold insert_builtins.
  destruct (dict_has (bov self) "__builtins__"); [reflexivity|].
  now apply dict_get_set_other.
Qed.

Lemma refresh_bov_absent self k :
  obj_get (variable_pdfs self) k = Ok None ->
  dict_get (bov (snd (refresh_bov self))) k = dict_get (bov self) k.
Proof.
  intros Hk. unfold refresh_bov, try_except, bind.
  destruct (for_each (dict_keys (bov self)) refresh_key self) as [r s1] eqn:Hloop.
  pose proof (for_each_refresh_absent k _ _ _ _ Hloop Hk) as Hs.
  now destruct r as [[]|e].
Qed.

Lemma simulate_loop_frame k n : forall values self,
  assigns_nothing (transfer_equation self) ->
  obj_get (variable_pdfs self) k = Ok None ->
  k <> "__builtins__" ->
  dict_get (bov (snd (simulate_loop n values self))) k = dict_get (bov self) k /\
  same_fields self (snd (simulate_loop n values self)).
Proof.
  induction n as [|n IH]; intros values self Hpure Hk Hne.
  - simpl. split; [reflexivity | apply same_fields_refl].
  - rewrite simulate_loop_S.
    destruct (refresh_bov_returns self) as (b & refreshed & Hr).
    destruct (refresh_bov_frame self b refreshed Hr) as (F1 & _).
    pose proof (refresh_bov_absent self k Hk) as A1.
    rewrite Hr in *. cbn [snd] in *.
    assert (Hpure1 : assigns_nothing (transfer_equation refreshed))
      by (destruct F1 as (-> & _); exact Hpure).
    pose proof (py_eval_other_keys refreshed k Hpure1 Hne) as A2.
    destruct (py_eval refreshed) as [r evaluated] eqn:He.
    pose proof (py_eval_fields refreshed r evaluated He) as F2.
    cbn [snd] in A2.
    assert (F : same_fields self evaluated)
      by (eapply same_fields_trans; eassumption).
    destruct r as [v|e].
    + destruct (IH (values ++ [v])%list evaluated) as [A3 F3];
        [destruct F as (-> & _); exact Hpure
        |destruct F as (_ & -> & _); exact Hk | exact Hne |].
      split; [congruence | eapply same_fields_trans; eassumption].
    + cbn [snd]. split; [congruence | exact F].
Qed.

(** A run never assigns to the formula, the pdf table or the iteration
    count. When the formula assigns to no global, the run leaves the
    value under every key for which the table has no pdf as it found it,
    whether it returns or raises ([__builtins__], which [eval] may add,
    apart). *)
Theorem simulate_leaves_ungoverned_values self k :
  assigns_nothing (transfer_equation self) ->
  obj_get (variable_pdfs self) k = Ok None ->
  k <> "__builtins__" ->
  dict_get (bov (snd (simulate self))) k = dict_get (bov self) k /\
  same_fields self (snd (simulate self)).
Proof.
  intros Hpure Hk Hne.
  destruct (simulate_loop_frame k (num_iterations self) [] self Hpure Hk Hne)
    as [A F].
  rewrite simulate_unfold.
  now destruct (simulate_loop (num_iterations self) [] self) as [[vs|e] s].
Qed.

End RunMore.

(* ------------------------------------------------------------------ *)
(** ** A run of no trials *)

Section NoTrials.
Context {E : Env float}.

(** With [num_iterations] 0 the loop body never runs: [simulate] returns
    without raising, mean and sd are both NaN (numpy divides 0.0 by the
    count 0), and the object is untouched: nothing is drawn, and the bag
    does not even get [__builtins__]. *)
Theorem simulate_without_trials (self : MonteCarloSimulator) :
  num_iterations self = 0 ->
  simulate self = (Ok {| mean := nan; sd := nan |}, self).
Proof.
  intros HN. rewrite simulate_unfold, HN. reflexivity.
Qed.

End NoTrials.

(* ------------------------------------------------------------------ *)
(** ** The further properties at work *)

Section MoreRuns.
Local Open Scope float_scope.

(** normal(mean=5, sd=0), first draw of the stand-in: the sample is 5
    and the generator has moved on. *)
Lemma normal_5_0_sample :
  get_random_sample (normal_pdf 5 0) degraded = (Ok (VNum 5), set_rng 1%nat degraded).
Proof.
  exact (sampler_draws_from_law (normal_pdf 5 0) degraded "normal" np_normal
           ["mean"; "sd"] [5; 0] eq_refl eq_refl eq_refl eq_refl).
Defined.

(** An entry for a variable the bag does not have changes nothing. *)
Lemma unused_entry_is_ignored :
  bov (snd (refresh_bov road_cost)) =
  bov (snd (refresh_bov
              (init (transfer_equation road_cost) (bov road_cost)
                    (of_dict (road_cost_pdfs ++ [("unused", nosuch_pdf)])%list)
                    (Some 3%nat) 0%nat))).
Proof.
  refine (proj1 (proj2 (refresh_bov_reads_only_bag_keys
                          (transfer_equation road_cost) (bov road_cost)
                          (of_dict road_cost_pdfs)
                          (of_dict (road_cost_pdfs ++ [("unused", nosuch_pdf)])%list)
                          (Some 3%nat) 0%nat _))).
  intros k [<- | [<- | []]]; reflexivity.
Defined.

Lemma road_cost_keys_distinct :
  NoDup (dict_keys [("unit_cost_km", VNum 0); ("total_road_length", VNum 0)]).
Proof.
  repeat (constructor; [simpl; intuition discriminate|]). constructor.
Qed.

Lemma road_cost_bags_agree k :
  dict_get road_cost_pdfs k = None ->
  dict_get [("unit_cost_km", VNum 0); ("total_road_length", VNum 0)] k =
  dict_get [("unit_cost_km", VNum 7); ("total_road_length", VNum 9)] k.
Proof.
  simpl. destruct (String.eqb k "unit_cost_km"); [discriminate|].
  destruct (String.eqb k "total_road_length"); [discriminate|]. reflexivity.
Qed.

(** The example of mcs.py returns the same whether its bag starts at 0
    and 0 or at 7 and 9. *)
Lemma road_cost_start_values_do_not_matter :
  fst (simulate (init (transfer_equation road_cost)
                   [("unit_cost_km", VNum 0); ("total_road_length", VNum 0)]
                   (of_dict road_cost_pdfs) (Some 3%nat) 0%nat)) =
  fst (simulate (init (transfer_equation road_cost)
                   [("unit_cost_km", VNum 7); ("total_road_length", VNum 9)]
                   (of_dict road_cost_pdfs) (Some 3%nat) 0%nat)).
Proof.
  exact (proj2 (initial_values_of_governed_keys_are_forgotten
                  (transfer_equation road_cost)
                  [("unit_cost_km", VNum 0); ("total_road_length", VNum 0)]
                  [("unit_cost_km", VNum 7); ("total_road_length", VNum 9)]
                  road_cost_pdfs (Some 3%nat) 0%nat
                  eq_refl road_cost_keys_distinct road_cost_bags_agree)).
Defined.

Lemma a_is_not_builtins : "a" <> "__builtins__".
Proof. discriminate. Qed.

(** In [partly_governed] only b has a pdf: a is still 5 after the run. *)
Lemma partly_governed_keeps_a :
  dict_get (bov (snd (simulate partly_governed))) "a" = Some (VNum 5).
Proof.
  exact (proj1 (simulate_leaves_ungoverned_values partly_governed "a"
                  (assignment_free_assigns_nothing
                     (transfer_equation partly_governed) eq_refl)
                  eq_refl a_is_not_builtins)).
Defined.

(** A run of [road_cost] with no trials. *)
Lemma road_cost_without_trials :
  simulate (init (transfer_equation road_cost) (bov road_cost)
              (of_dict road_cost_pdfs) (Some 0%nat) 0%nat) =
  (Ok {| mean := nan; sd := nan |},
   init (transfer_equation road_cost) (bov road_cost)
     (of_dict road_cost_pdfs) (Some 0%nat) 0%nat).
Proof.
  exact (simulate_without_trials
           (init (transfer_equation road_cost) (bov road_cost)
              (of_dict road_cost_pdfs) (Some 0%nat) 0%nat) eq_refl).
Defined.

End MoreRuns.


